(** * slorado: the basecaller entry point

    A shallow embedding of [basecaller_main] (src/basecaller_main.cpp):
    the option loop, the argument check, the read loop and the exits,
    written over a trace of the externally visible actions.  The
    components the driver calls and whose code lives in other files
    (chunker, stitcher, model runner, signal preparation) enter the
    driver through the [Externals] interface; the chunker and the
    stitcher are also modelled from the specification in their own
    modules. *)

From Stdlib Require Import ZArith Lia List String Ascii Bool.
Import ListNotations.

Local Open Scope string_scope.
Local Open Scope list_scope.
Local Open Scope Z_scope.

(* ===================================================================== *)
(** ** C library pieces used by the driver *)
(* ===================================================================== *)

Definition EXIT_SUCCESS : Z := 0.
Definition EXIT_FAILURE : Z := 1.

Module Libc.

Definition LONG_MAX : Z := 2 ^ 63 - 1.
Definition LONG_MIN : Z := - 2 ^ 63.

(** [isspace] in the C locale: space, and \t \n \v \f \r. *)
Definition isspace (a : ascii) : bool :=
  let n := Z.of_nat (nat_of_ascii a) in
  (n =? 32) || ((9 <=? n) && (n <=? 13)).

Definition digit_of (a : ascii) : option Z :=
  let n := Z.of_nat (nat_of_ascii a) in
  if (48 <=? n) && (n <=? 57) then Some (n - 48) else None.

Fixpoint skip_space (s : string) : string :=
  match s with
  | String a r => if isspace a then skip_space r else s
  | EmptyString => s
  end.

Fixpoint digits (acc : Z) (s : string) : Z :=
  match s with
  | String a r =>
      match digit_of a with
      | Some d => digits (10 * acc + d) r
      | None => acc
      end
  | EmptyString => acc
  end.

(** [strtol(s, NULL, 10)]: leading white space, an optional sign, the
    longest run of decimal digits; out-of-range values saturate. *)
Definition strtol (s : string) : Z :=
  let s := skip_space s in
  let '(neg, s) :=
    match s with
    | String "-"%char r => (true, r)
    | String "+"%char r => (false, r)
    | _ => (false, s)
    end in
  let v := digits 0 s in
  if neg then Z.max (- v) LONG_MIN else Z.min v LONG_MAX.

(** Conversion of a [long] to a 32-bit [int] (wrap-around). *)
Definition to_int (z : Z) : Z := (z + 2 ^ 31) mod 2 ^ 32 - 2 ^ 31.

(** [atoi(s)] is [(int) strtol(s, NULL, 10)]. *)
Definition atoi (s : string) : Z := to_int (strtol s).

End Libc.

Export Libc.

(* ===================================================================== *)
(** ** Data of the driver *)
(* ===================================================================== *)

(** [FILE *] values the driver handles: the two standard streams and the
    file opened by [-o]. *)
Inductive FILEp : Type :=
| stdout
| stderr
| fopened (path : string).

Definition FILEp_eqb (a b : FILEp) : bool :=
  match a, b with
  | stdout, stdout => true
  | stderr, stderr => true
  | fopened p, fopened q => String.eqb p q
  | _, _ => false
  end.

(** [opt_t]: the fields of the option structure that [basecaller_main]
    reads or writes. *)
Record opt_t : Type := mk_opt {
  batch_size_bytes : Z;
  batch_size : Z;
  num_thread : Z;
  chunk_size : Z;
  overlap : Z;
  out_path : string;
  out : FILEp;
  num_runners : Z;
  debug_break : Z;
  flag : Z;
  device : string
}.

Definition set_batch_size_bytes (o : opt_t) (v : Z) : opt_t :=
  mk_opt v (batch_size o) (num_thread o) (chunk_size o) (overlap o)
         (out_path o) (out o) (num_runners o) (debug_break o) (flag o) (device o).
Definition set_batch_size (o : opt_t) (v : Z) : opt_t :=
  mk_opt (batch_size_bytes o) v (num_thread o) (chunk_size o) (overlap o)
         (out_path o) (out o) (num_runners o) (debug_break o) (flag o) (device o).
Definition set_num_thread (o : opt_t) (v : Z) : opt_t :=
  mk_opt (batch_size_bytes o) (batch_size o) v (chunk_size o) (overlap o)
         (out_path o) (out o) (num_runners o) (debug_break o) (flag o) (device o).
Definition set_chunk_size (o : opt_t) (v : Z) : opt_t :=
  mk_opt (batch_size_bytes o) (batch_size o) (num_thread o) v (overlap o)
         (out_path o) (out o) (num_runners o) (debug_break o) (flag o) (device o).
Definition set_overlap (o : opt_t) (v : Z) : opt_t :=
  mk_opt (batch_size_bytes o) (batch_size o) (num_thread o) (chunk_size o) v
         (out_path o) (out o) (num_runners o) (debug_break o) (flag o) (device o).
Definition set_out (o : opt_t) (p : string) (f : FILEp) : opt_t :=
  mk_opt (batch_size_bytes o) (batch_size o) (num_thread o) (chunk_size o) (overlap o)
         p f (num_runners o) (debug_break o) (flag o) (device o).
Definition set_num_runners (o : opt_t) (v : Z) : opt_t :=
  mk_opt (batch_size_bytes o) (batch_size o) (num_thread o) (chunk_size o) (overlap o)
         (out_path o) (out o) v (debug_break o) (flag o) (device o).
Definition set_debug_break (o : opt_t) (v : Z) : opt_t :=
  mk_opt (batch_size_bytes o) (batch_size o) (num_thread o) (chunk_size o) (overlap o)
         (out_path o) (out o) (num_runners o) v (flag o) (device o).
Definition set_flag (o : opt_t) (v : Z) : opt_t :=
  mk_opt (batch_size_bytes o) (batch_size o) (num_thread o) (chunk_size o) (overlap o)
         (out_path o) (out o) (num_runners o) (debug_break o) v (device o).
Definition set_device (o : opt_t) (d : string) : opt_t :=
  mk_opt (batch_size_bytes o) (batch_size o) (num_thread o) (chunk_size o) (overlap o)
         (out_path o) (out o) (num_runners o) (debug_break o) (flag o) d.

(** One return of [getopt_long] before it answers -1: the value returned
    (an option character, or 0 for a long option without a short form),
    and the values it leaves in [longindex] and [optarg].  What
    [getopt_long] prints itself (its diagnostic for an unknown option or a
    missing argument, [opterr] being left set) is the library's and is not
    among the events of the driver. *)
Record getopt_result : Type := mk_getopt {
  c : ascii;
  longindex : Z;
  optarg : string
}.

(** The command line as [getopt_long] presents it: its successive returns,
    then the arguments left from [argv[optind]] on. *)
Record cmdline : Type := mk_cmdline {
  options : list getopt_result;
  positionals : list string
}.

(** A record of the input file: the identifier and the raw samples. *)
Record slow5_rec : Type := mk_rec {
  read_id : string;
  raw_signal : list Z
}.

(** The input as the reader shows it to the loop: the records that
    [slow5_get_next] delivers (each with a return value of 0), then the
    negative return and the [slow5_errno] of the call that delivers none. *)
Record slow5_file : Type := mk_slow5 {
  records : list slow5_rec;
  end_ret : Z;
  end_errno : Z
}.

(** Arguments of the [ModelRunner<GPUDecoder>] constructor. *)
Record ModelRunner : Type := mk_runner {
  runner_model : string;
  runner_device : string;
  runner_chunk_size : Z;
  runner_batch_size : Z
}.

(** What is printed. *)
Inductive message : Type :=
| MHelp (opt : opt_t)
| MError (text : string) (entered : option Z)
| MWarning (text : string)
| MVersion
| MText (text : string)
| MSummary (model data : string) (opt : opt_t)
| MNotEOF (ret : Z)
| MPerformance.

(** Externally visible actions, in program order. *)
Inductive event : Type :=
| Fprintf (fp : FILEp) (m : message)
| SetLogLevel (v : Z)
| Fopen (path : string)
| Slow5Open (path : string)
| NewModelRunner (r : ModelRunner)
| Slow5GetNext (ret : Z)
| WriteToFile (fp : FILEp) (sequence qstring id : string) (fastq : bool)
| Slow5Close.

(* ===================================================================== *)
(** ** Control: a trace monad with process exit *)
(* ===================================================================== *)

Inductive outcome (A : Type) : Type :=
| Running (a : A) (trace : list event)
| Exited (status : Z) (trace : list event)
| Diverged.

Arguments Running {A} a trace.
Arguments Exited {A} status trace.
Arguments Diverged {A}.

Definition ret {A} (a : A) : outcome A := Running a [].

Definition bind {A B} (m : outcome A) (k : A -> outcome B) : outcome B :=
  match m with
  | Running a t =>
      match k a with
      | Running b t' => Running b (t ++ t')
      | Exited s t' => Exited s (t ++ t')
      | Diverged => Diverged
      end
  | Exited s t => Exited s t
  | Diverged => Diverged
  end.

Definition emit (e : event) : outcome unit := Running tt [e].
Definition exit {A} (status : Z) : outcome A := Exited status [].

Declare Scope run_scope.
Delimit Scope run_scope with run.
Notation "x <- m ;; k" := (bind m (fun x => k))
  (at level 100, m at next level, right associativity) : run_scope.
Notation "m ;; k" := (bind m (fun _ => k))
  (at level 100, right associativity) : run_scope.
Local Open Scope run_scope.

(** [ERROR(...)] and [WARNING(...)] (error.h): a message on the diagnostic
    stream, taken as printed whatever the log level. *)
Definition ERROR (text : string) (entered : option Z) : outcome unit :=
  emit (Fprintf stderr (MError text entered)).
Definition WARNING (text : string) : outcome unit :=
  emit (Fprintf stderr (MWarning text)).

Definition print_help_msg (fp_help : FILEp) (opt : opt_t) : outcome unit :=
  emit (Fprintf fp_help (MHelp opt)).

(* ===================================================================== *)
(** ** Chunks *)
(* ===================================================================== *)

(** Modelled from the spec: the [Chunk] type is declared outside the
    driver's file.  The data model (section 3) gives a chunk its start
    offset in the normalized signal and its length, and, once decoded
    (ChunkCall, one per chunk), its called subsequence, the per-base
    quality string and the move table (the time-step of each called base). *)
Record Chunk : Type := mk_chunk {
  start_offset : Z;
  chunk_len : Z;
  call_seq : string;
  call_qstring : string;
  moves : list Z
}.

(* ===================================================================== *)
(** ** What the driver calls and does not define *)
(* ===================================================================== *)

(** The functions, constants and build switches that [basecaller_main]
    uses and that are defined in other files or libraries.  The signal is
    a tensor of floating-point samples; its type stays abstract.  Every
    call is taken to return: [yes_or_no] gives the flag word it leaves in
    [opt.flag], [scale_signal] the signal it leaves in place,
    [basecall_chunks] the chunk vector it leaves in place, [stitch_chunks]
    the two strings it fills.  The timers of the performance summary are
    left out. *)
Class Externals : Type := {
  Tensor : Type;
  (* slorado.h, misc.h *)
  init_opt : opt_t;
  mm_parse_num : string -> Z;
  yes_or_no : Z -> Z -> string -> string -> Z -> Z;
  HAVE_ACC : bool;
  SLORADO_PRF : Z;
  SLORADO_ACC : Z;
  SLORADO_EFQ : Z;
  (* stdio: does fopen(path, "w") give a stream *)
  fopen_w : string -> bool;
  (* slow5lib *)
  SLOW5_ERR_EOF : Z;
  slow5_open : string -> option slow5_file;
  (* signal_prep.h, torch *)
  tensor_from_record : slow5_rec -> Tensor;
  slice_to : Tensor -> Z -> Tensor;
  slice_from : Tensor -> Z -> Tensor;
  trim_signal : Tensor -> Z;
  scale_signal : Tensor -> Tensor;
  (* basecall.h, utils/stitch.h *)
  chunks_from_tensor : Tensor -> Z -> Z -> list Chunk;
  basecall_chunks : Tensor -> list Chunk -> Z -> Z -> ModelRunner -> list Chunk;
  stitch_chunks : list Chunk -> string * string
}.

(** Names in the [long_options] table, by index. *)
Definition long_options_name (i : Z) : string :=
  match i with
  | 0 => "threads" | 1 => "batchsize" | 2 => "max-bytes" | 3 => "verbose"
  | 4 => "help" | 5 => "version" | 6 => "output" | 7 => "debug-break"
  | 8 => "profile-cpu" | 9 => "accel" | 10 => "chunk-size" | 11 => "overlap"
  | 12 => "device" | 13 => "num-runners" | 14 => "emit-fastq"
  | _ => EmptyString
  end.

Definition opt_is (a b : ascii) : bool := Ascii.eqb a b.
Definition NUL : ascii := Ascii.zero.

(** How the read loop is left. *)
Inductive loop_exit : Type :=
| Break (ret : Z)
| Return (v : Z).

(* ===================================================================== *)
(** ** The driver *)
(* ===================================================================== *)

Section Driver.

Context {X : Externals}.

(** One turn of the option loop: the body of
    [while ((c = getopt_long(...)) >= 0)]. *)
Definition parse_option (st : opt_t * FILEp) (r : getopt_result)
  : outcome (opt_t * FILEp) :=
  let '(opt, fp_help) := st in
  if opt_is (c r) "B" then
    let opt := set_batch_size_bytes opt (mm_parse_num (optarg r)) in
    if batch_size_bytes opt <=? 0 then
      ERROR "Maximum number of bytes should be larger than 0." None ;;
      exit EXIT_FAILURE
    else ret (opt, fp_help)
  else if opt_is (c r) "K" then
    let opt := set_batch_size opt (atoi (optarg r)) in
    if batch_size opt <? 1 then
      ERROR "Batch size should larger than 0. You entered" (Some (batch_size opt)) ;;
      exit EXIT_FAILURE
    else ret (opt, fp_help)
  else if opt_is (c r) "t" then
    let opt := set_num_thread opt (atoi (optarg r)) in
    if num_thread opt <? 1 then
      ERROR "Number of threads should larger than 0. You entered" (Some (num_thread opt)) ;;
      exit EXIT_FAILURE
    else ret (opt, fp_help)
  else if opt_is (c r) "v" then
    let v := atoi (optarg r) in
    emit (SetLogLevel v) ;;
    ret (opt, fp_help)
  else if opt_is (c r) "x" then
    ret (set_device opt (optarg r), fp_help)
  else if opt_is (c r) "c" then
    let opt := set_chunk_size opt (atoi (optarg r)) in
    if chunk_size opt <? 1 then
      ERROR "Chunk size should larger than 0. You entered" (Some (chunk_size opt)) ;;
      exit EXIT_FAILURE
    else ret (opt, fp_help)
  else if opt_is (c r) "p" then
    let opt := set_overlap opt (atoi (optarg r)) in
    if overlap opt <? 1 then
      ERROR "Overlap should larger than 0. You entered" (Some (overlap opt)) ;;
      exit EXIT_FAILURE
    else ret (opt, fp_help)
  else if opt_is (c r) "o" then
    emit (Fopen (optarg r)) ;;
    if fopen_w (optarg r) then
      ret (set_out opt (optarg r) (fopened (optarg r)), fp_help)
    else
      emit (Fprintf stderr (MText "Error in opening output file")) ;;
      exit EXIT_FAILURE
  else if opt_is (c r) "r" then
    let opt := set_num_runners opt (atoi (optarg r)) in
    if num_runners opt <? 1 then
      ERROR "Number of runners should larger than 0. You entered" (Some (num_runners opt)) ;;
      exit EXIT_FAILURE
    else ret (opt, fp_help)
  else if opt_is (c r) "V" then
    emit (Fprintf stdout MVersion) ;;
    exit EXIT_SUCCESS
  else if opt_is (c r) "h" then
    ret (opt, stdout)
  else if opt_is (c r) NUL && (longindex r =? 7) then
    ret (set_debug_break opt (atoi (optarg r)), fp_help)
  else if opt_is (c r) NUL && (longindex r =? 8) then
    ret (set_flag opt (yes_or_no (flag opt) SLORADO_PRF
                         (long_options_name (longindex r)) (optarg r) 1), fp_help)
  else if opt_is (c r) NUL && (longindex r =? 9) then
    if HAVE_ACC then
      ret (set_flag opt (yes_or_no (flag opt) SLORADO_ACC
                           (long_options_name (longindex r)) (optarg r) 1), fp_help)
    else
      WARNING "--accel has no effect when compiled for the CPU" ;;
      ret (opt, fp_help)
  else if opt_is (c r) NUL && (longindex r =? 14) then
    ret (set_flag opt (yes_or_no (flag opt) SLORADO_EFQ
                         (long_options_name (longindex r)) (optarg r) 1), fp_help)
  else ret (opt, fp_help).

(** The option loop over the returns of [getopt_long]. *)
Fixpoint parse_args (rs : list getopt_result) (st : opt_t * FILEp)
  : outcome (opt_t * FILEp) :=
  match rs with
  | [] => ret st
  | r :: rs' => st' <- parse_option st r ;; parse_args rs' st'
  end.

(** The chunks of a record as they reach the stitcher: the body of the
    read loop from [tensor_from_record] to [basecall_chunks]. *)
Definition read_chunks (opt : opt_t) (model_runner : ModelRunner)
           (rec : slow5_rec) : list Chunk :=
  let signal := tensor_from_record rec in
  let trim_start := trim_signal (slice_to signal 8000) in
  let signal := slice_from signal trim_start in
  let signal := scale_signal signal in
  let chunks := chunks_from_tensor signal (chunk_size opt) (overlap opt) in
  basecall_chunks signal chunks (chunk_size opt) (batch_size opt) model_runner.

(** From a record to its stitched call: sequence and quality string. *)
Definition basecall_read (opt : opt_t) (model_runner : ModelRunner)
           (rec : slow5_rec) : string * string :=
  stitch_chunks (read_chunks opt model_runner rec).

(** The signal of a record as the chunker receives it: converted, trimmed
    and scaled. *)
Definition prepared_signal (rec : slow5_rec) : Tensor :=
  let signal := tensor_from_record rec in
  let trim_start := trim_signal (slice_to signal 8000) in
  let signal := slice_from signal trim_start in
  scale_signal signal.

(** The chunks of a record as the chunker returns them, before
    [basecall_chunks]. *)
Definition raw_chunks (opt : opt_t) (rec : slow5_rec) : list Chunk :=
  chunks_from_tensor (prepared_signal rec) (chunk_size opt) (overlap opt).

(** What [write_to_file] receives for a record. *)
Definition finished_read (opt : opt_t) (model_runner : ModelRunner)
           (rec : slow5_rec) : string * string * string :=
  (read_id rec, fst (basecall_read opt model_runner rec),
   snd (basecall_read opt model_runner rec)).

(** [while (1)]: one record per turn, until the reader delivers none.  The
    call that delivers none is tested as the source tests it, [ret < 0]
    and then [slow5_errno]; a reader that would then answer with a return
    that is not negative keeps the loop turning ([Diverged]). *)
Fixpoint read_loop (opt : opt_t) (model_runner : ModelRunner)
         (recs : list slow5_rec) (e_ret e_errno : Z) : outcome loop_exit :=
  match recs with
  | rec :: rest =>
      emit (Slow5GetNext 0) ;;
      let '(sequence, qstring) := basecall_read opt model_runner rec in
      emit (WriteToFile (out opt) sequence qstring (read_id rec)
                        (negb (Z.land (flag opt) SLORADO_EFQ =? 0))) ;;
      read_loop opt model_runner rest e_ret e_errno
  | [] =>
      emit (Slow5GetNext e_ret) ;;
      if e_ret <? 0 then
        if negb (e_errno =? SLOW5_ERR_EOF) then ret (Return EXIT_FAILURE)
        else ret (Break e_ret)
      else Diverged
  end.

(** Help, then exit: with success when the help goes to [stdout]. *)
Definition help_and_exit {A} (fp_help : FILEp) (opt : opt_t) : outcome A :=
  print_help_msg fp_help opt ;;
  if FILEp_eqb fp_help stdout then exit EXIT_SUCCESS else exit EXIT_FAILURE.

(** The run on an opened input: the runner, the read loop, and what
    follows the loop.  [Running v t] is a return of [v]. *)
Definition run_reads (opt : opt_t) (model : string) (sp : slow5_file)
  : outcome Z :=
  let model_runner :=
    mk_runner model (device opt) (chunk_size opt) (batch_size opt) in
  emit (NewModelRunner model_runner) ;;
  l <- read_loop opt model_runner (records sp) (end_ret sp) (end_errno sp) ;;
  match l with
  | Return v => ret v
  | Break r =>
      if negb (r =? SLOW5_ERR_EOF) then
        emit (Fprintf stderr (MNotEOF r)) ;;
        exit EXIT_FAILURE
      else
        emit (Fprintf stdout MPerformance) ;;
        emit (Fprintf stderr (MText EmptyString)) ;;
        emit Slow5Close ;;
        ret 0
  end.

(** [basecaller_main] from the argument-count check on. *)
Definition after_options (cl : cmdline) (st : opt_t * FILEp) : outcome Z :=
  let '(opt, fp_help) := st in
  if negb (Z.of_nat (List.length (positionals cl)) =? 2) || FILEp_eqb fp_help stdout
  then help_and_exit fp_help opt
  else
    match nth_error (positionals cl) 0 with
    | None => help_and_exit fp_help opt
    | Some model =>
        match nth_error (positionals cl) 1 with
        | None => help_and_exit fp_help opt
        | Some data =>
            emit (Fprintf stderr (MSummary model data opt)) ;;
            emit (Slow5Open data) ;;
            match slow5_open data with
            | None =>
                emit (Fprintf stderr (MText "Error in opening slow5 file")) ;;
                exit EXIT_FAILURE
            | Some sp => run_reads opt model sp
            end
        end
    end.

(** [basecaller_main]: the options, then the rest. *)
Definition basecaller_main (cl : cmdline) : outcome Z :=
  let fp_help := stderr in
  let opt := init_opt in
  st <- parse_args (options cl) (opt, fp_help) ;;
  after_options cl st.

End Driver.

(* ===================================================================== *)
(** ** The chunker *)
(* ===================================================================== *)

Module Chunker.

(** A chunk as the chunker leaves it: offset and length, nothing called yet. *)
Definition new_chunk (offset len : Z) : Chunk :=
  mk_chunk offset len EmptyString EmptyString [].

(** Modelled from the spec: [chunks_from_tensor] is defined outside the
    driver's file.  Section 4.2: start at offset 0, step forward by
    (C - O) each iteration ([V] is the overlap O), clip the final chunk's
    length to the remaining samples.  The final chunk is the one whose window reaches
    the end of the signal; every call of the iteration costs one unit of
    [fuel], and [None] is an iteration that did not finish. *)
Fixpoint chunks_from (fuel : nat) (L C V offset : Z) : option (list Chunk) :=
  match fuel with
  | 0%nat => None
  | S fuel' =>
      let len := Z.min C (L - offset) in
      if L <=? offset + C then Some [new_chunk offset len]
      else
        match chunks_from fuel' L C V (offset + (C - V)) with
        | Some rest => Some (new_chunk offset len :: rest)
        | None => None
        end
  end.

(** The chunks of a signal of [L] samples, for a chunk size [C] and an
    overlap [V]. *)
Definition chunks_of_signal (L C V : Z) : option (list Chunk) :=
  chunks_from (S (Z.to_nat L)) L C V 0.

(** End offset (exclusive) of a chunk in the signal. *)
Definition chunk_end (ch : Chunk) : Z := start_offset ch + chunk_len ch.

(** The sample at offset [p] lies in the chunk. *)
Definition covers (ch : Chunk) (p : Z) : Prop :=
  start_offset ch <= p < chunk_end ch.

(** Number of samples two chunks share. *)
Definition shared (a b : Chunk) : Z :=
  Z.min (chunk_end a) (chunk_end b) - Z.max (start_offset a) (start_offset b).

(** The chunks are in strictly increasing start-offset order. *)
Definition increasing_offsets (cs : list Chunk) : Prop :=
  forall (i : nat) (a b : Chunk),
    nth_error cs i = Some a -> nth_error cs (S i) = Some b ->
    start_offset a < start_offset b.

(** A list of chunks laid out from [offset] as the iteration does. *)
Fixpoint chain (L C V offset : Z) (cs : list Chunk) : Prop :=
  match cs with
  | [] => False
  | ch :: rest =>
      start_offset ch = offset /\
      match rest with
      | [] => chunk_len ch = L - offset /\ L <= offset + C
      | _ :: _ => chunk_len ch = C /\ offset + C < L /\
                  chain L C V (offset + (C - V)) rest
      end
  end.

End Chunker.

(* ===================================================================== *)
(** ** The stitcher *)
(* ===================================================================== *)

Module Stitcher.

(** The calls of a string from position [n] on. *)
Definition string_from (n : nat) (s : string) : string :=
  substring n (String.length s - n) s.

Section WithCut.

(** The cut of one boundary: for chunk i, chunk i+1 and the length of
    their overlap, the position in chunk i's calls where it is cut and
    the position in chunk i+1's calls from which it is kept.  The spec
    (sections 4.5 and 9) asks for a pure function of these three
    arguments and leaves its rule open. *)
Variable cut_index : Chunk -> Chunk -> Z -> nat * nat.

(** Modelled from the spec: [stitch_chunks] is defined outside the
    driver's file.  Section 4.5: at each boundary keep chunk i's calls
    up to the cut and chunk i+1's calls from the cut onward, quality
    scores following their base; the last chunk's trailing calls are
    never trimmed; the output is the concatenation, in call order.
    [start] is where the kept calls of [cur] begin. *)
Fixpoint stitch_from (start : nat) (cur : Chunk) (rest : list Chunk)
  : string * string :=
  match rest with
  | [] => (string_from start (call_seq cur), string_from start (call_qstring cur))
  | next :: rest' =>
      let overlap_len := start_offset cur + chunk_len cur - start_offset next in
      let '(upto, from) := cut_index cur next overlap_len in
      let '(s, q) := stitch_from from next rest' in
      ((substring start (upto - start) (call_seq cur) ++ s)%string,
       (substring start (upto - start) (call_qstring cur) ++ q)%string)
  end.

(** The first chunk's leading calls are never trimmed. *)
Definition stitch_chunks (chunks : list Chunk) : string * string :=
  match chunks with
  | [] => (EmptyString, EmptyString)
  | first :: rest => stitch_from 0 first rest
  end.

End WithCut.

(** One kept segment (position, length) per chunk, read off a string
    field of the chunks and concatenated in list order. *)
Fixpoint pieces (field : Chunk -> string) (chunks : list Chunk)
         (segs : list (nat * nat)) : string :=
  match chunks, segs with
  | ch :: chunks', (p, n) :: segs' =>
      (substring p n (field ch) ++ pieces field chunks' segs')%string
  | _, _ => EmptyString
  end.

End Stitcher.

(* ===================================================================== *)
(** ** A sample environment *)
(* ===================================================================== *)

(** A concrete environment on which the driver can be run: the defaults the
    [long_options] table documents, an input file of three short reads, a
    decoder that calls one base per chunk, and the chunker and stitcher of
    the modules above. *)
Module Sample.

Definition defaults : opt_t :=
  mk_opt 20000000 512 8 8000 150 "-" stdout 1 (-1) 0 "cpu".

Definition input : slow5_file :=
  mk_slow5 [mk_rec "read_a" [10; 11; 12; 13; 14; 15; 16];
            mk_rec "read_b" [20; 21; 22];
            mk_rec "read_c" [30; 31; 32; 33; 34]]
           (-1) (-1).

Definition yes_no (flags bit : Z) (name arg : string) (yes_to_set : Z) : Z :=
  if String.eqb arg "yes" then Z.lor flags bit
  else if String.eqb arg "no" then Z.land flags (Z.lnot bit)
  else flags.

Definition chunker (signal : list Z) (C V : Z) : list Chunk :=
  match Chunker.chunks_of_signal (Z.of_nat (List.length signal)) C V with
  | Some cs => cs
  | None => []
  end.

Definition decode (ch : Chunk) : Chunk :=
  mk_chunk (start_offset ch) (chunk_len ch) "A" "#" [0].

Definition midpoint (cur next : Chunk) (overlap_len : Z) : nat * nat :=
  (String.length (call_seq cur), 0%nat).

#[export] Instance env : Externals := {|
  Tensor := list Z;
  init_opt := defaults;
  mm_parse_num := atoi;
  yes_or_no := yes_no;
  HAVE_ACC := false;
  SLORADO_PRF := 1;
  SLORADO_ACC := 2;
  SLORADO_EFQ := 4;
  fopen_w := fun _ => true;
  SLOW5_ERR_EOF := -1;
  slow5_open := fun path => if String.eqb path "reads.blow5" then Some input else None;
  tensor_from_record := raw_signal;
  slice_to := fun t n => firstn (Z.to_nat n) t;
  slice_from := fun t n => skipn (Z.to_nat n) t;
  trim_signal := fun _ => 0;
  scale_signal := fun t => t;
  chunks_from_tensor := chunker;
  basecall_chunks := fun _ chunks _ _ _ => map decode chunks;
  stitch_chunks := Stitcher.stitch_chunks midpoint
|}.

(** The same records on a reader that ends with an error. *)
Definition broken_input : slow5_file :=
  mk_slow5 (records input) (-5) (-5).

Definition broken_env : Externals := {|
  Tensor := list Z;
  init_opt := defaults;
  mm_parse_num := atoi;
  yes_or_no := yes_no;
  HAVE_ACC := false;
  SLORADO_PRF := 1;
  SLORADO_ACC := 2;
  SLORADO_EFQ := 4;
  fopen_w := fun _ => true;
  SLOW5_ERR_EOF := -1;
  slow5_open := fun path =>
    if String.eqb path "reads.blow5" then Some broken_input else None;
  tensor_from_record := raw_signal;
  slice_to := fun t n => firstn (Z.to_nat n) t;
  slice_from := fun t n => skipn (Z.to_nat n) t;
  trim_signal := fun _ => 0;
  scale_signal := fun t => t;
  chunks_from_tensor := chunker;
  basecall_chunks := fun _ chunks _ _ _ => map decode chunks;
  stitch_chunks := Stitcher.stitch_chunks midpoint
|}.

Definition short (ch : ascii) (arg : string) : getopt_result :=
  mk_getopt ch 0 arg.

Definition long (index : Z) (arg : string) : getopt_result :=
  mk_getopt NUL index arg.

End Sample.

(* ===================================================================== *)
(** ** Observations on a run *)
(* ===================================================================== *)

Definition trace_of {A} (m : outcome A) : list event :=
  match m with
  | Running _ t => t
  | Exited _ t => t
  | Diverged => []
  end.

(** The status the process ends with: the value [basecaller_main] returns
    (handed on by its caller) or the argument of [exit]. *)
Definition status_of (m : outcome Z) : option Z :=
  match m with
  | Running v _ => Some v
  | Exited s _ => Some s
  | Diverged => None
  end.

(** Events of the part of the run that works on the input: opening it,
    building the runner, reading, writing a finished read. *)
Definition input_event (e : event) : bool :=
  match e with
  | Slow5Open _ | NewModelRunner _ | Slow5GetNext _
  | WriteToFile _ _ _ _ _ | Slow5Close => true
  | _ => false
  end.

Definition before_input (t : list event) : Prop :=
  forallb (fun e => negb (input_event e)) t = true.

(** The finished reads of a trace, in the order written:
    identifier, sequence, quality string. *)
Fixpoint writes (t : list event) : list (string * string * string) :=
  match t with
  | [] => []
  | WriteToFile _ s q id _ :: t' => (id, s, q) :: writes t'
  | _ :: t' => writes t'
  end.

(** Number of model runners constructed in a trace. *)
Fixpoint runners (t : list event) : nat :=
  match t with
  | [] => 0%nat
  | NewModelRunner _ :: t' => S (runners t')
  | _ :: t' => runners t'
  end.

(** The event prints the help message. *)
Definition is_help (e : event) : bool :=
  match e with
  | Fprintf _ (MHelp _) => true
  | _ => false
  end.

Section Acceptance.

Context {X : Externals}.

(** The test the option loop applies to one option: [false] is an exit
    inside the loop. *)
Definition accepts (r : getopt_result) : bool :=
  if opt_is (c r) "B" then 0 <? mm_parse_num (optarg r)
  else if opt_is (c r) "K" || opt_is (c r) "t" || opt_is (c r) "c"
          || opt_is (c r) "p" || opt_is (c r) "r"
       then 1 <=? atoi (optarg r)
  else if opt_is (c r) "o" then fopen_w (optarg r)
  else if opt_is (c r) "V" then false
  else true.

End Acceptance.

(** The value of the last option [ch] of the list, [d] when there is none. *)
Definition last_value (ch : ascii) (rs : list getopt_result) (d : Z) : Z :=
  fold_left (fun acc r => if opt_is (c r) ch then atoi (optarg r) else acc) rs d.

(** The option [-h] (or [--help]) occurs. *)
Definition has_help (rs : list getopt_result) : bool :=
  existsb (fun r => opt_is (c r) "h") rs.

(* ===================================================================== *)
(** ** Further observations *)
(* ===================================================================== *)

(** The loop has a branch for the option: one of the short letters, or a
    long option without a letter at index 7, 8, 9 or 14. *)
Definition handled (r : getopt_result) : bool :=
  existsb (opt_is (c r))
          ["B"; "K"; "t"; "v"; "x"; "c"; "p"; "o"; "r"; "V"; "h"]%char
  || (opt_is (c r) NUL && existsb (Z.eqb (longindex r)) [7; 8; 9; 14]).

(** The options whose value is stored (and, for some, tested and printed)
    and not read again: [-t], [-r], [-B], [--debug-break]. *)
Definition stored_only (r : getopt_result) : bool :=
  opt_is (c r) "t" || opt_is (c r) "r" || opt_is (c r) "B"
  || (opt_is (c r) NUL && (longindex r =? 7)).

(** After white space and an optional sign, the string goes on with a
    decimal digit. *)
Definition starts_number (s : string) : bool :=
  let s := skip_space s in
  let s :=
    match s with
    | String "-"%char r => r
    | String "+"%char r => r
    | _ => s
    end in
  match s with
  | String a _ => match digit_of a with Some _ => true | None => false end
  | EmptyString => false
  end.

(** The argument of the last option [ch] of the list, [d] when there is
    none. *)
Definition last_string (ch : ascii) (rs : list getopt_result) (d : string) : string :=
  fold_left (fun acc r => if opt_is (c r) ch then optarg r else acc) rs d.

(** The stream of the last [-o] of the list, [d] when there is none. *)
Definition last_out (rs : list getopt_result) (d : FILEp) : FILEp :=
  fold_left (fun acc r => if opt_is (c r) "o" then fopened (optarg r) else acc) rs d.

(** The arguments of the options [ch] of the list, in order. *)
Definition option_args (ch : ascii) (rs : list getopt_result) : list string :=
  map optarg (filter (fun r => opt_is (c r) ch) rs).

(** The paths passed to [fopen] in a trace, in order. *)
Fixpoint fopens (t : list event) : list string :=
  match t with
  | [] => []
  | Fopen p :: t' => p :: fopens t'
  | _ :: t' => fopens t'
  end.

(** The streams the finished reads of a trace were written to. *)
Fixpoint write_streams (t : list event) : list FILEp :=
  match t with
  | [] => []
  | WriteToFile fp _ _ _ _ :: t' => fp :: write_streams t'
  | _ :: t' => write_streams t'
  end.

(** The runners constructed in a trace. *)
Fixpoint runner_events (t : list event) : list ModelRunner :=
  match t with
  | [] => []
  | NewModelRunner r :: t' => r :: runner_events t'
  | _ :: t' => runner_events t'
  end.

(** What the option loop can do: print an error, a warning or the version,
    set the log level, open an output file. *)
Definition loop_event (e : event) : bool :=
  match e with
  | Fprintf stderr (MError _ _) | Fprintf stderr (MWarning _)
  | Fprintf stderr (MText _) | Fprintf stdout MVersion
  | SetLogLevel _ | Fopen _ => true
  | _ => false
  end.

(** Two option structures that agree on every field read after the
    summary is printed. *)
Definition run_equiv (o o' : opt_t) : Prop :=
  chunk_size o = chunk_size o' /\ overlap o = overlap o' /\
  batch_size o = batch_size o' /\ out_path o = out_path o' /\
  out o = out o' /\ flag o = flag o' /\ device o = device o'.

(** The shape two outcomes of the option loop share when they are started
    in equivalent structures on options of the same effect. *)
Definition same_shape (m m' : outcome (opt_t * FILEp)) : Prop :=
  match m, m' with
  | Running (o, fp) t, Running (o', fp') t' =>
      run_equiv o o' /\ fp = fp' /\ before_input t /\ before_input t'
  | Exited s t, Exited s' t' => s = s' /\ before_input t /\ before_input t'
  | _, _ => False
  end.

Section FurtherObservations.

Context {X : Externals}.

(** The events of one turn of the read loop on a record. *)
Definition read_events (opt : opt_t) (mr : ModelRunner) (rec : slow5_rec)
  : list event :=
  [Slow5GetNext 0;
   WriteToFile (out opt) (fst (basecall_read opt mr rec))
               (snd (basecall_read opt mr rec)) (read_id rec)
               (negb (Z.land (flag opt) SLORADO_EFQ =? 0))].

(** The events after the last call of the reader. *)
Definition end_events (sp : slow5_file) : list event :=
  if negb (end_errno sp =? SLOW5_ERR_EOF) then []
  else if negb (end_ret sp =? SLOW5_ERR_EOF)
       then [Fprintf stderr (MNotEOF (end_ret sp))]
       else [Fprintf stdout MPerformance; Fprintf stderr (MText EmptyString);
             Slow5Close].

(** How a run on an opened input ends, [t] being its trace: a return of
    [EXIT_FAILURE] inside the loop, an exit after it, or a return of 0. *)
Definition ending (sp : slow5_file) (t : list event) : outcome Z :=
  if negb (end_errno sp =? SLOW5_ERR_EOF) then Running EXIT_FAILURE t
  else if negb (end_ret sp =? SLOW5_ERR_EOF) then Exited EXIT_FAILURE t
  else Running 0 t.

(** The events of a run from the summary on, when the input opens. *)
Definition reading_trace (opt : opt_t) (model data : string) (sp : slow5_file)
  : list event :=
  let mr := mk_runner model (device opt) (chunk_size opt) (batch_size opt) in
  [Fprintf stderr (MSummary model data opt); Slow5Open data; NewModelRunner mr]
    ++ flat_map (read_events opt mr) (records sp)
    ++ [Slow5GetNext (end_ret sp)]
    ++ end_events sp.

(** Two options with the same effect on the run: the same option, or two
    accepted values of one stored-only option. *)
Definition similar (r r' : getopt_result) : Prop :=
  r = r' \/
  (stored_only r = true /\ c r = c r' /\ longindex r = longindex r' /\
   accepts r = true /\ accepts r' = true).

End FurtherObservations.

(* ===================================================================== *)
(** ** Traces *)
(* ===================================================================== *)

Lemma before_input_app (t1 t2 : list event) :
  before_input t1 -> before_input t2 -> before_input (t1 ++ t2).
Proof.
  unfold before_input. intros H1 H2. rewrite forallb_app, H1, H2. reflexivity.
Qed.

Lemma before_input_writes (t : list event) : before_input t -> writes t = [].
Proof.
  unfold before_input. induction t as [|e t IH]; simpl; [reflexivity|].
  intros H. apply andb_prop in H. destruct H as [He Ht].
  destruct e; simpl in He; try discriminate; auto.
Qed.

Lemma before_input_runners (t : list event) : before_input t -> runners t = 0%nat.
Proof.
  unfold before_input. induction t as [|e t IH]; simpl; [reflexivity|].
  intros H. apply andb_prop in H. destruct H as [He Ht].
  destruct e; simpl in He; try discriminate; auto.
Qed.

Lemma writes_app (t1 t2 : list event) : writes (t1 ++ t2) = writes t1 ++ writes t2.
Proof.
  induction t1 as [|e t1 IH]; simpl; [reflexivity|].
  destruct e; simpl; rewrite ?IH; reflexivity.
Qed.

Lemma runners_app (t1 t2 : list event) :
  runners (t1 ++ t2) = (runners t1 + runners t2)%nat.
Proof.
  induction t1 as [|e t1 IH]; simpl; [reflexivity|].
  destruct e; simpl; rewrite ?IH; reflexivity.
Qed.

(* ===================================================================== *)
(** ** The option loop *)
(* ===================================================================== *)

Arguments atoi : simpl never.

(** Case analysis on the option character: the first test that succeeds
    fixes the character, and the remaining tests compute. *)
Ltac option_cases :=
  repeat match goal with
         | H : opt_is ?a _ = true |- _ =>
             apply Ascii.eqb_eq in H; subst a; simpl in *
         | |- context [opt_is ?a ?b] => destruct (opt_is a b) eqn:?; simpl in *
         end.

Ltac test_cases :=
  repeat match goal with
         | |- context [if ?b then _ else _] => destruct b eqn:?; simpl in *
         end.

Section OptionLoop.

Context {X : Externals}.

(** An accepted option leaves the loop running, prints nothing about the
    input, and changes the fields as its letter says. *)
Lemma parse_option_accepted (opt : opt_t) (fp : FILEp) (r : getopt_result) :
  accepts r = true ->
  exists opt' t,
    parse_option (opt, fp) r
    = Running (opt', if opt_is (c r) "h" then stdout else fp) t /\
    before_input t /\
    chunk_size opt' = (if opt_is (c r) "c" then atoi (optarg r) else chunk_size opt) /\
    overlap opt' = (if opt_is (c r) "p" then atoi (optarg r) else overlap opt) /\
    batch_size opt' = (if opt_is (c r) "K" then atoi (optarg r) else batch_size opt).
Proof.
  destruct r as [ch li arg]. unfold accepts, parse_option. simpl.
  option_cases; intros Hacc; try discriminate;
    try (apply Z.ltb_lt in Hacc); try (apply Z.leb_le in Hacc);
    test_cases; try lia; try discriminate;
    eexists; eexists; (split; [reflexivity|]); repeat split.
Qed.

(** A refused option ends the process inside the loop: with failure,
    except for [-V], which ends it with success. *)
Lemma parse_option_refused (opt : opt_t) (fp : FILEp) (r : getopt_result) :
  accepts r = false ->
  exists t,
    parse_option (opt, fp) r
    = Exited (if opt_is (c r) "V" then EXIT_SUCCESS else EXIT_FAILURE) t /\
    before_input t.
Proof.
  destruct r as [ch li arg]. unfold accepts, parse_option. simpl.
  option_cases; intros Hacc; try discriminate;
    try (apply Z.ltb_ge in Hacc); try (apply Z.leb_gt in Hacc);
    test_cases; try lia; try discriminate;
    eexists; (split; [reflexivity|]); reflexivity.
Qed.

End OptionLoop.

Section OptionLoopAll.

Context {X : Externals}.

Lemma last_value_cons (ch : ascii) (r : getopt_result) (rs : list getopt_result) (d : Z) :
  last_value ch (r :: rs) d
  = last_value ch rs (if opt_is (c r) ch then atoi (optarg r) else d).
Proof. reflexivity. Qed.

Lemma parse_args_cons (r : getopt_result) (rs : list getopt_result)
      (st : opt_t * FILEp) :
  parse_args (r :: rs) st = bind (parse_option st r) (fun st' => parse_args rs st').
Proof. reflexivity. Qed.

(** When every option is accepted the loop runs to its end; the three
    configuration fields hold the last value given, the help stream is
    [stdout] exactly when [-h] occurred. *)
Lemma parse_args_accepted (rs : list getopt_result) :
  forall (opt : opt_t) (fp : FILEp),
    forallb accepts rs = true ->
    exists opt' t,
      parse_args rs (opt, fp)
      = Running (opt', if has_help rs then stdout else fp) t /\
      before_input t /\
      chunk_size opt' = last_value "c" rs (chunk_size opt) /\
      overlap opt' = last_value "p" rs (overlap opt) /\
      batch_size opt' = last_value "K" rs (batch_size opt).
Proof.
  induction rs as [|r rs IH]; intros opt fp Hall.
  - exists opt, []. repeat split.
  - simpl in Hall. apply andb_prop in Hall. destruct Hall as [Hr Hrs].
    destruct (parse_option_accepted opt fp r Hr)
      as (opt1 & t1 & E1 & B1 & Hc & Hp & Hk).
    destruct (IH opt1 (if opt_is (c r) "h" then stdout else fp) Hrs)
      as (opt2 & t2 & E2 & B2 & Hc2 & Hp2 & Hk2).
    exists opt2, (t1 ++ t2).
    rewrite !last_value_cons, <- Hc, <- Hp, <- Hk.
    repeat split; auto using before_input_app.
    rewrite parse_args_cons, E1. cbn [bind]. rewrite E2.
    unfold has_help. cbn [existsb]. destruct (opt_is (c r) "h"); simpl; [|reflexivity].
    destruct (existsb _ rs); reflexivity.
Qed.

(** The first refused option ends the process there. *)
Lemma parse_args_refused (pre post : list getopt_result) (r : getopt_result)
      (opt : opt_t) (fp : FILEp) :
  forallb accepts pre = true ->
  accepts r = false ->
  exists t,
    parse_args (pre ++ r :: post) (opt, fp)
    = Exited (if opt_is (c r) "V" then EXIT_SUCCESS else EXIT_FAILURE) t /\
    before_input t.
Proof.
  revert opt fp. induction pre as [|a pre IH]; intros opt fp Hpre Hr.
  - destruct (parse_option_refused opt fp r Hr) as (t & E & B).
    exists t. cbn [app]. rewrite parse_args_cons, E. auto.
  - simpl in Hpre. apply andb_prop in Hpre. destruct Hpre as [Ha Hpre].
    destruct (parse_option_accepted opt fp a Ha) as (opt1 & t1 & E1 & B1 & _).
    destruct (IH opt1 (if opt_is (c a) "h" then stdout else fp) Hpre Hr)
      as (t2 & E2 & B2).
    exists (t1 ++ t2). cbn [app]. rewrite parse_args_cons, E1. cbn [bind].
    rewrite E2. auto using before_input_app.
Qed.

(** A list of options is accepted throughout, or has a first refused one. *)
Lemma first_refused (rs : list getopt_result) :
  forallb accepts rs = true \/
  exists pre r post,
    rs = pre ++ r :: post /\ forallb accepts pre = true /\ accepts r = false.
Proof.
  induction rs as [|a rs IH]; [left; reflexivity|].
  destruct (accepts a) eqn:Ha.
  - destruct IH as [IH | (pre & r & post & E & Hp & Hr)].
    + left. simpl. rewrite Ha, IH. reflexivity.
    + right. exists (a :: pre), r, post. subst rs. simpl. rewrite Ha. auto.
  - right. exists [], a, rs. auto.
Qed.

(** The loop never diverges and prints nothing about the input. *)
Lemma parse_args_before_input (rs : list getopt_result) (opt : opt_t) (fp : FILEp) :
  parse_args rs (opt, fp) <> Diverged /\
  before_input (trace_of (parse_args rs (opt, fp))).
Proof.
  destruct (first_refused rs) as [Hall | (pre & r & post & E & Hp & Hr)].
  - destruct (parse_args_accepted rs opt fp Hall) as (o & t & E & B & _).
    rewrite E. split; [discriminate | exact B].
  - subst rs. destruct (parse_args_refused pre post r opt fp Hp Hr) as (t & E & B).
    rewrite E. split; [discriminate | exact B].
Qed.

(** A loop that ran to its end accepted every option. *)
Lemma parse_args_running (rs : list getopt_result) (opt opt' : opt_t)
      (fp fp' : FILEp) (t : list event) :
  parse_args rs (opt, fp) = Running (opt', fp') t ->
  forallb accepts rs = true.
Proof.
  intros E. destruct (first_refused rs) as [Hall | (pre & r & post & E' & Hp & Hr)];
    [exact Hall|].
  subst rs. destruct (parse_args_refused pre post r opt fp Hp Hr) as (t' & E' & _).
  rewrite E' in E. discriminate.
Qed.

End OptionLoopAll.

(* ===================================================================== *)
(** ** The read loop *)
(* ===================================================================== *)

Section ReadLoop.

Context {X : Externals}.

Lemma read_loop_cons (opt : opt_t) (mr : ModelRunner) (rec : slow5_rec)
      (rest : list slow5_rec) (e_ret e_errno : Z) :
  read_loop opt mr (rec :: rest) e_ret e_errno
  = bind (emit (Slow5GetNext 0))
      (fun _ =>
         let '(sequence, qstring) := basecall_read opt mr rec in
         bind (emit (WriteToFile (out opt) sequence qstring (read_id rec)
                                 (negb (Z.land (flag opt) SLORADO_EFQ =? 0))))
              (fun _ => read_loop opt mr rest e_ret e_errno)).
Proof. reflexivity. Qed.

(** With a reader that ends on a negative return, the loop writes the
    records in the order delivered, one write per record, and is left by
    [break] at end of file and by [return EXIT_FAILURE] otherwise. *)
Lemma read_loop_writes (opt : opt_t) (mr : ModelRunner) (recs : list slow5_rec)
      (e_ret e_errno : Z) :
  e_ret < 0 ->
  exists t,
    read_loop opt mr recs e_ret e_errno
    = Running (if negb (e_errno =? SLOW5_ERR_EOF)
               then Return EXIT_FAILURE else Break e_ret) t /\
    writes t = map (finished_read opt mr) recs /\
    runners t = 0%nat.
Proof.
  intros Hneg. induction recs as [|rec rest IH].
  - exists [Slow5GetNext e_ret]. cbn [read_loop].
    apply Z.ltb_lt in Hneg. rewrite Hneg.
    destruct (negb (e_errno =? SLOW5_ERR_EOF)); repeat split.
  - destruct IH as (t & E & W & R).
    rewrite read_loop_cons. cbn [map].
    assert (Ef : finished_read opt mr rec
                 = (read_id rec, fst (basecall_read opt mr rec),
                    snd (basecall_read opt mr rec))) by reflexivity.
    rewrite Ef. clear Ef.
    destruct (basecall_read opt mr rec) as [s q].
    exists (Slow5GetNext 0 :: WriteToFile (out opt) s q (read_id rec)
              (negb (Z.land (flag opt) SLORADO_EFQ =? 0)) :: t).
    cbn [bind emit]. rewrite E. cbn [app writes runners fst snd].
    rewrite W, R. repeat split.
Qed.

(** The whole run on an opened input. *)
Lemma run_reads_outcome (opt : opt_t) (model : string) (sp : slow5_file) :
  end_ret sp < 0 ->
  let mr := mk_runner model (device opt) (chunk_size opt) (batch_size opt) in
  exists t,
    run_reads opt model sp
    = (if negb (end_errno sp =? SLOW5_ERR_EOF) then Running EXIT_FAILURE t
       else if negb (end_ret sp =? SLOW5_ERR_EOF) then Exited EXIT_FAILURE t
            else Running 0 t) /\
    writes t = map (finished_read opt mr) (records sp) /\
    runners t = 1%nat /\
    (end_errno sp = SLOW5_ERR_EOF -> end_ret sp = SLOW5_ERR_EOF -> In Slow5Close t).
Proof.
  intros Hneg mr.
  destruct (read_loop_writes opt mr (records sp) (end_ret sp) (end_errno sp) Hneg)
    as (t & E & W & R).
  unfold run_reads. fold mr. rewrite E. clear E.
  destruct (end_errno sp =? SLOW5_ERR_EOF) eqn:Ee; cbn [negb].
  - destruct (end_ret sp =? SLOW5_ERR_EOF) eqn:Er; cbn [negb].
    + cbn [bind emit ret exit app]. rewrite Er. cbn [negb app].
      eexists. split; [reflexivity|].
      cbn [writes runners]. rewrite writes_app, runners_app, W, R. cbn.
      rewrite app_nil_r. repeat split.
      intros _ _. right. apply in_or_app. right. cbn. auto.
    + cbn [bind emit ret exit app]. rewrite Er. cbn [negb app].
      eexists. split; [reflexivity|].
      cbn [writes runners]. rewrite writes_app, runners_app, W, R. cbn.
      rewrite app_nil_r. repeat split.
      intros _ H. apply Z.eqb_neq in Er. contradiction.
  - cbn [bind emit ret app]. eexists. split; [reflexivity|].
    rewrite !app_nil_r. cbn [writes runners]. rewrite W, R. repeat split.
    intros H. apply Z.eqb_neq in Ee. contradiction.
Qed.

(** The loop does not read [debug_break]. *)
Lemma read_loop_debug_break (opt : opt_t) (mr : ModelRunner) (recs : list slow5_rec)
      (e_ret e_errno n : Z) :
  read_loop (set_debug_break opt n) mr recs e_ret e_errno
  = read_loop opt mr recs e_ret e_errno.
Proof.
  induction recs as [|rec rest IH]; [reflexivity|].
  rewrite !read_loop_cons, IH. reflexivity.
Qed.

End ReadLoop.

(* ===================================================================== *)
(** ** The chunker: layout of the chunks *)
(* ===================================================================== *)

Module ChunkerFacts.

Import Chunker.

Section Layout.

Variables L C V : Z.
Hypothesis C_pos : 0 < C.
Hypothesis V_range : 0 <= V < C.

(** With enough fuel the iteration finishes, and its chunks are laid
    out from [offset] in steps of [C - V]. *)
Lemma chunks_from_chain (fuel : nat) :
  forall offset : Z,
    Z.max 0 (L - C - offset) < Z.of_nat fuel ->
    exists cs, chunks_from fuel L C V offset = Some cs /\ chain L C V offset cs.
Proof.
  induction fuel as [|fuel IH]; intros offset Hfuel; [lia|].
  cbn [chunks_from]. destruct (L <=? offset + C) eqn:Hend.
  - apply Z.leb_le in Hend. eexists. split; [reflexivity|].
    cbn. split; [reflexivity|]. lia.
  - apply Z.leb_gt in Hend.
    destruct (IH (offset + (C - V))) as (rest & E & Hrest); [lia|].
    rewrite E. eexists. split; [reflexivity|].
    destruct rest as [|b rest']; [contradiction|].
    cbn [chain new_chunk start_offset chunk_len]. split; [reflexivity|].
    split; [lia|]. split; [lia|]. exact Hrest.
Qed.

(** The head of a laid-out list starts at the offset and ends at the
    end of its window or of the signal, whichever comes first. *)
Lemma chain_head (offset : Z) (b : Chunk) (rest : list Chunk) :
  chain L C V offset (b :: rest) ->
  start_offset b = offset /\ chunk_end b = Z.min L (offset + C).
Proof.
  unfold chunk_end. cbn [chain]. intros [Hs Hr]. split; [exact Hs|].
  destruct rest; lia.
Qed.

Lemma chain_covers (cs : list Chunk) :
  forall offset p,
    chain L C V offset cs -> offset <= p < L ->
    exists ch, In ch cs /\ covers ch p.
Proof.
  induction cs as [|ch rest IH]; intros offset p Hc Hp; [contradiction|].
  destruct rest as [|b rest'].
  - exists ch. split; [left; reflexivity|].
    cbn in Hc. unfold covers, chunk_end. lia.
  - cbn [chain] in Hc. destruct Hc as (Hs & Hl & Hlt & Hrest).
    destruct (Z_lt_le_dec p (offset + C)) as [Hin | Hout].
    + exists ch. split; [left; reflexivity|]. unfold covers, chunk_end. lia.
    + destruct (IH (offset + (C - V)) p Hrest) as (ch' & Hin' & Hcov); [lia|].
      exists ch'. split; [right; exact Hin' | exact Hcov].
Qed.

Lemma chain_within (cs : list Chunk) :
  forall offset,
    chain L C V offset cs -> 0 <= offset <= L ->
    forall ch, In ch cs -> 0 <= start_offset ch /\ chunk_end ch <= L.
Proof.
  induction cs as [|a rest IH]; intros offset Hc Ho ch Hin; [contradiction|].
  destruct Hin as [<- | Hin].
  - destruct (chain_head offset a rest Hc) as [Hs He]. lia.
  - destruct rest as [|b rest']; [contradiction|].
    cbn [chain] in Hc. destruct Hc as (Hs & Hl & Hlt & Hrest).
    apply (IH (offset + (C - V)) Hrest); [lia | exact Hin].
Qed.

Lemma chain_adjacent (cs : list Chunk) :
  forall offset i a b,
    chain L C V offset cs ->
    nth_error cs i = Some a -> nth_error cs (S i) = Some b ->
    chunk_len a = C /\ start_offset a < start_offset b /\ shared a b = V.
Proof.
  induction cs as [|ch rest IH]; intros offset i a b Hc Ha Hb; [contradiction|].
  destruct rest as [|n rest']; [destruct i; discriminate|].
  cbn [chain] in Hc. destruct Hc as (Hs & Hl & Hlt & Hrest).
  destruct i as [|i].
  - cbn in Ha, Hb. injection Ha as <-. injection Hb as <-.
    destruct (chain_head _ _ _ Hrest) as [Hsn Hen].
    unfold shared, chunk_end in *. lia.
  - cbn [nth_error] in Ha, Hb. exact (IH _ i a b Hrest Ha Hb).
Qed.

Lemma chunks_of_signal_chain :
  0 <= L ->
  exists cs, chunks_of_signal L C V = Some cs /\ chain L C V 0 cs.
Proof.
  intros HL. apply chunks_from_chain. lia.
Qed.

End Layout.

(** Whatever the chunk size and the overlap, the chunks of an iteration
    that finished are laid out from its offset. *)
Lemma chunks_from_some_chain (L C V : Z) (fuel : nat) :
  forall (offset : Z) (cs : list Chunk),
    chunks_from fuel L C V offset = Some cs -> chain L C V offset cs.
Proof.
  induction fuel as [|fuel IH]; intros offset cs E; [discriminate|].
  cbn [chunks_from] in E. destruct (L <=? offset + C) eqn:Hend.
  - apply Z.leb_le in Hend. injection E as <-.
    cbn. split; [reflexivity|]. lia.
  - apply Z.leb_gt in Hend.
    destruct (chunks_from fuel L C V (offset + (C - V))) as [rest|] eqn:Er;
      [|discriminate].
    injection E as <-. pose proof (IH _ _ Er) as Hrest.
    destruct rest as [|b rest']; [contradiction|].
    cbn [chain new_chunk start_offset chunk_len]. split; [reflexivity|].
    split; [lia|]. split; [lia|]. exact Hrest.
Qed.

(** With a step that does not advance, no layout reaches the end of the
    signal from an offset whose window does not. *)
Lemma chain_needs_progress (L C V : Z) (cs : list Chunk) :
  forall offset : Z,
    C <= V -> offset + C < L -> chain L C V offset cs -> False.
Proof.
  induction cs as [|ch rest IH]; intros offset Hstep Hlt Hc; [exact Hc|].
  destruct rest as [|b rest'].
  - cbn in Hc. lia.
  - cbn [chain] in Hc. destruct Hc as (_ & _ & _ & Hrest).
    apply (IH (offset + (C - V))); [exact Hstep | lia | exact Hrest].
Qed.

(** A layout is in strictly increasing start-offset order. *)
Lemma chain_increasing (L C V : Z) (cs : list Chunk) :
  forall offset : Z, chain L C V offset cs -> increasing_offsets cs.
Proof.
  induction cs as [|ch rest IH]; intros offset Hc i a b Ha Hb;
    [destruct i; discriminate|].
  destruct rest as [|n rest']; [destruct i; discriminate|].
  pose proof Hc as Hc'.
  cbn [chain] in Hc. destruct Hc as (Hs & Hl & Hlt & Hrest).
  destruct i as [|i].
  - cbn in Ha, Hb. injection Ha as <-. injection Hb as <-.
    assert (Hn : start_offset n = offset + (C - V)).
    { cbn [chain] in Hrest. tauto. }
    destruct (Z_lt_le_dec V C) as [Hvc | Hcv]; [lia|].
    exfalso. apply (chain_needs_progress L C V (n :: rest') (offset + (C - V)));
      [exact Hcv | lia | exact Hrest].
  - cbn [nth_error] in Ha, Hb. exact (IH _ Hrest i a b Ha Hb).
Qed.

Lemma chunks_of_signal_increasing (L C V : Z) (cs : list Chunk) :
  chunks_of_signal L C V = Some cs -> increasing_offsets cs.
Proof.
  intros E. apply (chain_increasing L C V cs 0).
  apply (chunks_from_some_chain L C V _ 0 cs E).
Qed.

(** The order is a matter of the start offsets alone. *)
Lemma increasing_offsets_same (cs cs' : list Chunk) :
  map start_offset cs' = map start_offset cs ->
  increasing_offsets cs -> increasing_offsets cs'.
Proof.
  intros Hm Hinc i a b Ha Hb.
  assert (Hn : forall j x, nth_error cs' j = Some x ->
                           exists y, nth_error cs j = Some y /\
                                     start_offset y = start_offset x).
  { intros j x Hx.
    pose proof (map_nth_error start_offset j cs' Hx) as H. rewrite Hm in H.
    rewrite nth_error_map in H.
    destruct (nth_error cs j) as [y|]; [|discriminate].
    exists y. cbn in H. injection H as H. auto. }
  destruct (Hn i a Ha) as (a' & Ha' & Ea).
  destruct (Hn (S i) b Hb) as (b' & Hb' & Eb).
  rewrite <- Ea, <- Eb. exact (Hinc i a' b' Ha' Hb').
Qed.

End ChunkerFacts.

(* ===================================================================== *)
(** ** The stitcher: segments in chunk order *)
(* ===================================================================== *)

Module StitcherFacts.

Import Stitcher.

Lemma substring_all (s : string) : substring 0 (String.length s) s = s.
Proof.
  induction s as [|a s IH]; [reflexivity|]. cbn. rewrite IH. reflexivity.
Qed.

Lemma string_from_0 (s : string) : string_from 0 s = s.
Proof.
  unfold string_from. rewrite Nat.sub_0_r. apply substring_all.
Qed.

(** Asking for more than what is left gives what is left. *)
Lemma substring_over (s : string) :
  forall p n : nat,
    (String.length s - p <= n)%nat ->
    substring p n s = substring p (String.length s - p) s.
Proof.
  induction s as [|a s IH]; intros p n H.
  - destruct p, n; reflexivity.
  - destruct p as [|p].
    + destruct n as [|n]; [cbn in H; lia|].
      cbn [String.length Nat.sub substring]. f_equal.
      rewrite (IH 0%nat n) by (cbn in H; lia).
      rewrite Nat.sub_0_r. reflexivity.
    + cbn [String.length Nat.sub substring]. apply IH. cbn in H. lia.
Qed.

Lemma append_empty_r (s : string) : (s ++ EmptyString)%string = s.
Proof.
  induction s as [|a s IH]; [reflexivity|]. cbn. rewrite IH. reflexivity.
Qed.

Section WithCut.

Variable cut_index : Chunk -> Chunk -> Z -> nat * nat.

(** A single chunk is returned as it is. *)
Lemma stitch_single (ch : Chunk) :
  stitch_chunks cut_index [ch] = (call_seq ch, call_qstring ch).
Proof.
  cbn [stitch_chunks stitch_from]. rewrite !string_from_0. reflexivity.
Qed.

(** The stitched strings are one segment per chunk, in chunk order,
    the same segments for the sequence and for the qualities. *)
Lemma stitch_from_pieces (rest : list Chunk) :
  forall (start : nat) (cur : Chunk),
  exists segs,
    List.length segs = List.length (cur :: rest) /\
    stitch_from cut_index start cur rest
    = (pieces call_seq (cur :: rest) segs, pieces call_qstring (cur :: rest) segs).
Proof.
  induction rest as [|next rest' IH]; intros start cur.
  - exists [(start, Nat.max (String.length (call_seq cur))
                            (String.length (call_qstring cur)))].
    split; [reflexivity|]. cbn [stitch_from pieces].
    rewrite !append_empty_r. unfold string_from.
    rewrite <- !(substring_over _ start
                   (Nat.max (String.length (call_seq cur))
                            (String.length (call_qstring cur)))) by lia.
    reflexivity.
  - cbn [stitch_from].
    destruct (cut_index cur next
                (start_offset cur + chunk_len cur - start_offset next))
      as [upto from].
    destruct (IH from next) as (segs & Hlen & E). rewrite E.
    exists ((start, (upto - start)%nat) :: segs).
    split; [cbn [List.length]; rewrite Hlen; reflexivity|]. reflexivity.
Qed.

Lemma stitch_chunks_pieces (chunks : list Chunk) :
  exists segs,
    List.length segs = List.length chunks /\
    stitch_chunks cut_index chunks
    = (pieces call_seq chunks segs, pieces call_qstring chunks segs).
Proof.
  destruct chunks as [|first rest].
  - exists []. split; reflexivity.
  - apply stitch_from_pieces.
Qed.

End WithCut.

End StitcherFacts.

(* ===================================================================== *)
(** ** From the options to the reads *)
(* ===================================================================== *)

Arguments run_reads : simpl never.

Section Main.

Context {X : Externals}.

Lemma basecaller_main_unfold (cl : cmdline) :
  basecaller_main cl
  = bind (parse_args (options cl) (init_opt, stderr)) (after_options cl).
Proof. reflexivity. Qed.

(** An exit inside the option loop is the outcome of [basecaller_main]. *)
Lemma basecaller_main_exit_in_loop (cl : cmdline) (s : Z) (t : list event) :
  parse_args (options cl) (init_opt, stderr) = Exited s t ->
  basecaller_main cl = Exited s t.
Proof.
  intros E. rewrite basecaller_main_unfold, E. reflexivity.
Qed.

(** With [-h], or without two arguments, the help is printed and the
    process ends. *)
Lemma after_options_help (cl : cmdline) (opt : opt_t) (fp : FILEp) :
  fp = stdout \/ List.length (positionals cl) <> 2%nat ->
  after_options cl (opt, fp)
  = Exited (if FILEp_eqb fp stdout then EXIT_SUCCESS else EXIT_FAILURE)
           [Fprintf fp (MHelp opt)].
Proof.
  intros H. unfold after_options.
  assert (Hc : negb (Z.of_nat (List.length (positionals cl)) =? 2)
               || FILEp_eqb fp stdout = true).
  { destruct H as [-> | H].
    - apply orb_true_r.
    - apply orb_true_iff. left. apply negb_true_iff, Z.eqb_neq. lia. }
  rewrite Hc. unfold help_and_exit, print_help_msg.
  destruct (FILEp_eqb fp stdout); reflexivity.
Qed.

(** Without [-h] and with the two arguments, an input that opens is
    read. *)
Lemma after_options_reads (cl : cmdline) (opt : opt_t) (model data : string)
      (sp : slow5_file) :
  positionals cl = [model; data] ->
  slow5_open data = Some sp ->
  after_options cl (opt, stderr)
  = bind (Running tt [Fprintf stderr (MSummary model data opt); Slow5Open data])
         (fun _ => run_reads opt model sp).
Proof.
  intros Hp Ho. unfold after_options. rewrite Hp. cbn. rewrite Ho.
  destruct (run_reads opt model sp); reflexivity.
Qed.

(** A reader whose last return is not negative keeps the loop turning. *)
Lemma read_loop_diverges (opt : opt_t) (mr : ModelRunner) (recs : list slow5_rec)
      (e_ret e_errno : Z) :
  0 <= e_ret -> read_loop opt mr recs e_ret e_errno = Diverged.
Proof.
  intros H. induction recs as [|rec rest IH].
  - cbn [read_loop]. apply Z.ltb_ge in H. rewrite H. reflexivity.
  - rewrite read_loop_cons. destruct (basecall_read opt mr rec).
    cbn [bind emit]. rewrite IH. reflexivity.
Qed.

Lemma run_reads_runners (opt : opt_t) (model : string) (sp : slow5_file) :
  (runners (trace_of (run_reads opt model sp)) <= 1)%nat.
Proof.
  destruct (Z_lt_le_dec (end_ret sp) 0) as [Hneg | Hpos].
  - destruct (run_reads_outcome opt model sp Hneg) as (t & E & _ & R & _).
    rewrite E.
    destruct (negb (end_errno sp =? SLOW5_ERR_EOF));
      [|destruct (negb (end_ret sp =? SLOW5_ERR_EOF))]; cbn [trace_of]; lia.
  - unfold run_reads. rewrite read_loop_diverges by exact Hpos.
    cbn. lia.
Qed.

Lemma after_options_runners (cl : cmdline) (st : opt_t * FILEp) :
  (runners (trace_of (after_options cl st)) <= 1)%nat.
Proof.
  destruct st as [opt fp]. unfold after_options, help_and_exit, print_help_msg.
  destruct (negb _ || _).
  { destruct (FILEp_eqb fp stdout); cbn; lia. }
  destruct (nth_error (positionals cl) 0) as [model|];
    [|destruct (FILEp_eqb fp stdout); cbn; lia].
  destruct (nth_error (positionals cl) 1) as [data|];
    [|destruct (FILEp_eqb fp stdout); cbn; lia].
  destruct (slow5_open data) as [sp|]; [|cbn; lia].
  pose proof (run_reads_runners opt model sp) as H.
  cbn [bind emit]. destruct (run_reads opt model sp); cbn in *; lia.
Qed.

(** The outcome of a run that reaches the read loop. *)
Lemma basecaller_main_reads (cl : cmdline) (opt : opt_t) (t0 : list event)
      (model data : string) (sp : slow5_file) :
  parse_args (options cl) (init_opt, stderr) = Running (opt, stderr) t0 ->
  positionals cl = [model; data] ->
  slow5_open data = Some sp ->
  end_ret sp < 0 ->
  let mr := mk_runner model (device opt) (chunk_size opt) (batch_size opt) in
  exists t,
    basecaller_main cl
    = (if negb (end_errno sp =? SLOW5_ERR_EOF) then Running EXIT_FAILURE t
       else if negb (end_ret sp =? SLOW5_ERR_EOF) then Exited EXIT_FAILURE t
            else Running 0 t) /\
    writes t = map (finished_read opt mr) (records sp) /\
    (end_errno sp = SLOW5_ERR_EOF -> end_ret sp = SLOW5_ERR_EOF -> In Slow5Close t).
Proof.
  intros Ep Hp Ho Hneg mr.
  destruct (run_reads_outcome opt model sp Hneg) as (t & E & W & _ & Hc).
  pose proof (parse_args_before_input (options cl) init_opt stderr) as [_ B].
  rewrite Ep in B. cbn [trace_of] in B.
  exists (t0 ++ [Fprintf stderr (MSummary model data opt); Slow5Open data] ++ t).
  rewrite basecaller_main_unfold, Ep. cbn [bind].
  rewrite (after_options_reads cl opt model data sp Hp Ho), E.
  rewrite !writes_app, (before_input_writes t0 B). cbn [writes app]. fold mr in W.
  split; [|split; [exact W|]].
  - destruct (negb (end_errno sp =? SLOW5_ERR_EOF));
      [|destruct (negb (end_ret sp =? SLOW5_ERR_EOF))]; reflexivity.
  - intros H1 H2. apply in_or_app. right. right. right. auto.
Qed.

End Main.

(* ===================================================================== *)
(** ** Configuration validation *)
(* ===================================================================== *)

(** C1, as amended.  The option loop refuses a chunk size, an overlap or a
    batch size exactly when the value given is less than 1, and it ends the
    process with failure at that option, before the input is opened or a
    read processed.  The overlap is not compared with the chunk size.  A
    command line all of whose options pass their own test runs the loop to
    its end, and the three fields then hold the last values given. *)
Theorem C1_option_validation {X : Externals} (cl : cmdline) :
  (forall (opt : opt_t) (fp : FILEp) (r : getopt_result),
      (c r = "c" \/ c r = "p" \/ c r = "K")%char ->
      (exists t, parse_option (opt, fp) r = Exited EXIT_FAILURE t)
      <-> atoi (optarg r) < 1)
  /\
  (forall (pre post : list getopt_result) (r : getopt_result),
      options cl = pre ++ r :: post ->
      forallb accepts pre = true ->
      (c r = "c" \/ c r = "p" \/ c r = "K")%char ->
      atoi (optarg r) < 1 ->
      exists t, basecaller_main cl = Exited EXIT_FAILURE t /\ before_input t)
  /\
  (forallb accepts (options cl) = true ->
   exists opt fp t,
     parse_args (options cl) (init_opt, stderr) = Running (opt, fp) t /\
     chunk_size opt = last_value "c" (options cl) (chunk_size init_opt) /\
     overlap opt = last_value "p" (options cl) (overlap init_opt) /\
     batch_size opt = last_value "K" (options cl) (batch_size init_opt)).
Proof.
  assert (Hacc : forall r, (c r = "c" \/ c r = "p" \/ c r = "K")%char ->
                           accepts r = (1 <=? atoi (optarg r))).
  { intros [ch li arg] H. cbn [c] in H. unfold accepts. cbn [c optarg].
    destruct H as [-> | [-> | ->]]; reflexivity. }
  assert (HV : forall r, (c r = "c" \/ c r = "p" \/ c r = "K")%char ->
                         opt_is (c r) "V" = false).
  { intros [ch li arg] H. cbn [c] in *. destruct H as [-> | [-> | ->]]; reflexivity. }
  split; [|split].
  - intros opt fp r Hc. split.
    + intros [t E]. destruct (accepts r) eqn:Ha.
      * destruct (parse_option_accepted opt fp r Ha) as (o & t' & E' & _).
        rewrite E' in E. discriminate.
      * rewrite (Hacc r Hc) in Ha. apply Z.leb_gt in Ha. lia.
    + intros Hlt. assert (Ha : accepts r = false).
      { rewrite (Hacc r Hc). apply Z.leb_gt. lia. }
      destruct (parse_option_refused opt fp r Ha) as (t & E & _).
      rewrite (HV r Hc) in E. exists t. exact E.
  - intros pre post r Hcl Hpre Hc Hlt.
    assert (Ha : accepts r = false).
    { rewrite (Hacc r Hc). apply Z.leb_gt. lia. }
    destruct (parse_args_refused pre post r init_opt stderr Hpre Ha) as (t & E & B).
    rewrite (HV r Hc), <- Hcl in E.
    exists t. split; [apply basecaller_main_exit_in_loop; exact E | exact B].
  - intros Hall.
    destruct (parse_args_accepted (options cl) init_opt stderr Hall)
      as (opt & t & E & _ & Hc & Hp & Hk).
    exists opt, (if has_help (options cl) then stdout else stderr), t. auto.
Qed.

(** C1, witness: [-c 100 -p 0] is refused at [-p], and [-K 8 -c 100 -p 200]
    is accepted with the values given. *)
Lemma C1_option_validation_witness :
  (exists t,
      @basecaller_main Sample.env
        (mk_cmdline [Sample.short "c" "100"; Sample.short "p" "0"]
                    ["model"; "reads.blow5"])
      = Exited EXIT_FAILURE t /\ before_input t)
  /\
  (exists opt fp t,
      @parse_args Sample.env
        [Sample.short "K" "8"; Sample.short "c" "100"; Sample.short "p" "200"]
        (Sample.defaults, stderr) = Running (opt, fp) t /\
      chunk_size opt = 100 /\ overlap opt = 200 /\ batch_size opt = 8).
Proof.
  split.
  - destruct (@C1_option_validation Sample.env
                (mk_cmdline [Sample.short "c" "100"; Sample.short "p" "0"]
                            ["model"; "reads.blow5"])) as (_ & B & _).
    apply (B [Sample.short "c" "100"] [] (Sample.short "p" "0")).
    + reflexivity.
    + reflexivity.
    + right. left. reflexivity.
    + vm_compute. reflexivity.
  - destruct (@C1_option_validation Sample.env
                (mk_cmdline [Sample.short "K" "8"; Sample.short "c" "100";
                             Sample.short "p" "200"] [])) as (_ & _ & A).
    apply A. reflexivity.
Defined.

(** C1, counterexample.  An overlap of 200 with a chunk size of 100 is
    accepted: the run goes on to the input, writes the three reads and
    returns success.  An overlap of 0 with a chunk size of 100 is refused:
    the run ends with failure and nothing is written. *)
Lemma C1_counterexample :
  (let run := @basecaller_main Sample.env
                (mk_cmdline [Sample.short "c" "100"; Sample.short "p" "200"]
                            ["model"; "reads.blow5"]) in
   status_of run = Some EXIT_SUCCESS /\
   map (fun w => fst (fst w)) (writes (trace_of run)) = ["read_a"; "read_b"; "read_c"])
  /\
  (let run := @basecaller_main Sample.env
                (mk_cmdline [Sample.short "c" "100"; Sample.short "p" "0"]
                            ["model"; "reads.blow5"]) in
   run = Exited EXIT_FAILURE
           [Fprintf stderr (MError "Overlap should larger than 0. You entered" (Some 0))] /\
   writes (trace_of run) = []).
Proof.
  split; split; vm_compute; reflexivity.
Qed.

(* ===================================================================== *)
(** ** Help *)
(* ===================================================================== *)

(** C10, as amended.  On a command line whose options all pass the option
    loop: with [-h] the help message goes to [stdout] and the process ends
    with success, whatever the number of arguments, and nothing of the
    input is opened or read; without [-h] and with a number of arguments
    other than two the help message goes to [stderr] and the process ends
    with failure. *)
Theorem C10_help {X : Externals} (cl : cmdline) (opt : opt_t) (fp : FILEp)
        (t : list event) :
  parse_args (options cl) (init_opt, stderr) = Running (opt, fp) t ->
  (has_help (options cl) = true ->
   basecaller_main cl = Exited EXIT_SUCCESS (t ++ [Fprintf stdout (MHelp opt)]) /\
   before_input (t ++ [Fprintf stdout (MHelp opt)]))
  /\
  (has_help (options cl) = false ->
   List.length (positionals cl) <> 2%nat ->
   basecaller_main cl = Exited EXIT_FAILURE (t ++ [Fprintf stderr (MHelp opt)]) /\
   before_input (t ++ [Fprintf stderr (MHelp opt)])).
Proof.
  intros E.
  pose proof (parse_args_running _ _ _ _ _ _ E) as Hall.
  destruct (parse_args_accepted (options cl) init_opt stderr Hall)
    as (opt' & t' & E' & B & _).
  rewrite E in E'. injection E' as -> -> ->.
  split.
  - intros Hh. rewrite Hh in *. split.
    + rewrite basecaller_main_unfold, E. cbn [bind].
      rewrite after_options_help by (left; reflexivity). reflexivity.
    + apply before_input_app; [exact B | reflexivity].
  - intros Hh Hn. rewrite Hh in *. split.
    + rewrite basecaller_main_unfold, E. cbn [bind].
      rewrite after_options_help by (right; exact Hn). reflexivity.
    + apply before_input_app; [exact B | reflexivity].
Qed.

(** C10, witness: [-x cuda -h] without arguments, and [-x cuda] with one
    argument. *)
Lemma C10_help_witness :
  @basecaller_main Sample.env
    (mk_cmdline [Sample.short "x" "cuda"; Sample.short "h" EmptyString] [])
  = Exited EXIT_SUCCESS
      [Fprintf stdout (MHelp (set_device Sample.defaults "cuda"))]
  /\
  @basecaller_main Sample.env (mk_cmdline [Sample.short "x" "cuda"] ["model"])
  = Exited EXIT_FAILURE
      [Fprintf stderr (MHelp (set_device Sample.defaults "cuda"))].
Proof.
  split.
  - apply (@C10_help Sample.env
             (mk_cmdline [Sample.short "x" "cuda"; Sample.short "h" EmptyString] [])
             (set_device Sample.defaults "cuda") stdout []); reflexivity.
  - apply (@C10_help Sample.env (mk_cmdline [Sample.short "x" "cuda"] ["model"])
             (set_device Sample.defaults "cuda") stderr []);
      [reflexivity | reflexivity | discriminate].
Defined.

(** C10, counterexample.  [-h -K 0] contains [-h] and ends with failure on
    the batch size, no help message printed; [-V] without [-h] and without
    arguments ends with success, no help message printed. *)
Lemma C10_counterexample :
  (let cl := mk_cmdline [Sample.short "h" EmptyString; Sample.short "K" "0"] [] in
   let run := @basecaller_main Sample.env cl in
   has_help (options cl) = true /\
   status_of run = Some EXIT_FAILURE /\
   existsb is_help (trace_of run) = false)
  /\
  (let cl := mk_cmdline [Sample.short "V" EmptyString] [] in
   let run := @basecaller_main Sample.env cl in
   has_help (options cl) = false /\
   List.length (positionals cl) <> 2%nat /\
   status_of run = Some EXIT_SUCCESS /\
   existsb is_help (trace_of run) = false).
Proof.
  split; [split; [|split] | split; [|split; [|split]]];
    try discriminate; vm_compute; reflexivity.
Qed.

(* ===================================================================== *)
(** ** Options the run does not act on *)
(* ===================================================================== *)

(** C5, what the code does.  The read loop never consults [debug_break]:
    its run is the same whatever the field holds.  With
    [-c 2 -p 1 -K 1 --debug-break 1] on the sample input (three reads of 7,
    3 and 5 samples, so six chunks and six batches of one chunk for the
    first read alone) the value 1 is stored and all three reads are
    basecalled and written. *)
Theorem C5_debug_break_ignored :
  (forall (X : Externals) (opt : opt_t) (mr : ModelRunner) (recs : list slow5_rec)
          (e_ret e_errno n : Z),
      read_loop (set_debug_break opt n) mr recs e_ret e_errno
      = read_loop opt mr recs e_ret e_errno)
  /\
  (let cl := mk_cmdline [Sample.short "c" "2"; Sample.short "p" "1";
                         Sample.short "K" "1"; Sample.long 7 "1"]
                        ["model"; "reads.blow5"] in
   (exists opt t,
       @parse_args Sample.env (options cl) (Sample.defaults, stderr)
       = Running (opt, stderr) t /\ debug_break opt = 1) /\
   option_map (@List.length Chunk)
     (Chunker.chunks_of_signal 7 2 1) = Some 6%nat /\
   status_of (@basecaller_main Sample.env cl) = Some EXIT_SUCCESS /\
   map (fun w => fst (fst w)) (writes (trace_of (@basecaller_main Sample.env cl)))
   = ["read_a"; "read_b"; "read_c"]).
Proof.
  split.
  - intros X. apply read_loop_debug_break.
  - cbv zeta. split; [|split; [|split]].
    + eexists. eexists. split; vm_compute; reflexivity.
    + vm_compute. reflexivity.
    + vm_compute. reflexivity.
    + vm_compute. reflexivity.
Qed.

(** C6, what the code does.  Whatever the command line, a run constructs at
    most one model runner.  With [-r 4] on the sample input the value 4 is
    stored and printed in the summary, and one runner is constructed. *)
Theorem C6_one_runner :
  (forall (X : Externals) (cl : cmdline),
      (runners (trace_of (basecaller_main cl)) <= 1)%nat)
  /\
  (let cl := mk_cmdline [Sample.short "r" "4"] ["model"; "reads.blow5"] in
   (exists opt t,
       @parse_args Sample.env (options cl) (Sample.defaults, stderr)
       = Running (opt, stderr) t /\ num_runners opt = 4) /\
   status_of (@basecaller_main Sample.env cl) = Some EXIT_SUCCESS /\
   runners (trace_of (@basecaller_main Sample.env cl)) = 1%nat).
Proof.
  split.
  - intros X cl. rewrite basecaller_main_unfold.
    pose proof (parse_args_before_input (options cl) init_opt stderr) as [_ B].
    destruct (parse_args (options cl) (init_opt, stderr)) as [st t | s t |].
    + cbn [trace_of] in B. cbn [bind].
      pose proof (after_options_runners cl st) as H.
      destruct (after_options cl st); cbn [trace_of] in *;
        rewrite ?runners_app, ?(before_input_runners t B); cbn; lia.
    + cbn [trace_of bind] in *. rewrite (before_input_runners t B). lia.
    + cbn. lia.
  - cbv zeta. split; [|split].
    + eexists. eexists. split; vm_compute; reflexivity.
    + vm_compute. reflexivity.
    + vm_compute. reflexivity.
Qed.

(* ===================================================================== *)
(** ** End of the input, and the order of the output *)
(* ===================================================================== *)

(** C7.  For a run that reaches the read loop (options accepted, no [-h],
    two arguments, input opened) on a reader that ends with a negative
    return: when the reader signals the end of the file the run writes every
    read, closes the input and returns success; when it reports anything
    else the run ends with failure, and in both cases exactly the reads
    delivered before are written, each once and whole. *)
Theorem C7_end_of_input {X : Externals} (cl : cmdline) (opt : opt_t)
        (t0 : list event) (model data : string) (sp : slow5_file) :
  parse_args (options cl) (init_opt, stderr) = Running (opt, stderr) t0 ->
  positionals cl = [model; data] ->
  slow5_open data = Some sp ->
  end_ret sp < 0 ->
  let mr := mk_runner model (device opt) (chunk_size opt) (batch_size opt) in
  (end_ret sp = SLOW5_ERR_EOF /\ end_errno sp = SLOW5_ERR_EOF ->
   exists t,
     basecaller_main cl = Running EXIT_SUCCESS t /\
     In Slow5Close t /\
     writes t = map (finished_read opt mr) (records sp))
  /\
  (~ (end_ret sp = SLOW5_ERR_EOF /\ end_errno sp = SLOW5_ERR_EOF) ->
   status_of (basecaller_main cl) = Some EXIT_FAILURE /\
   writes (trace_of (basecaller_main cl)) = map (finished_read opt mr) (records sp)).
Proof.
  intros Ep Hp Ho Hneg mr.
  destruct (basecaller_main_reads cl opt t0 model data sp Ep Hp Ho Hneg)
    as (t & E & W & Hc).
  fold mr in W. split.
  - intros [Hr He]. exists t.
    rewrite E. rewrite He, Hr, Z.eqb_refl in *. cbn [negb].
    repeat split; auto.
  - intros Hn. rewrite E.
    destruct (end_errno sp =? SLOW5_ERR_EOF) eqn:Ee; cbn [negb].
    + destruct (end_ret sp =? SLOW5_ERR_EOF) eqn:Er; cbn [negb].
      * apply Z.eqb_eq in Ee, Er. tauto.
      * split; [reflexivity | exact W].
    + split; [reflexivity | exact W].
Qed.

(** C7, witness: the sample input ends at the end of the file; the same
    records on a reader that ends with the error -5 end the run with
    failure after the three reads are written. *)
Lemma C7_end_of_input_witness :
  (exists t,
      @basecaller_main Sample.env (mk_cmdline [] ["model"; "reads.blow5"])
      = Running EXIT_SUCCESS t /\
      In Slow5Close t /\
      map (fun w => fst (fst w)) (writes t) = ["read_a"; "read_b"; "read_c"])
  /\
  (let run := @basecaller_main Sample.broken_env
                (mk_cmdline [] ["model"; "reads.blow5"]) in
   status_of run = Some EXIT_FAILURE /\
   map (fun w => fst (fst w)) (writes (trace_of run)) = ["read_a"; "read_b"; "read_c"]).
Proof.
  split.
  - destruct (@C7_end_of_input Sample.env (mk_cmdline [] ["model"; "reads.blow5"])
                Sample.defaults [] "model" "reads.blow5" Sample.input)
      as [A _]; try reflexivity.
    destruct A as (t & E & Hc & W); [split; reflexivity|].
    exists t. rewrite W. repeat split; assumption.
  - destruct (@C7_end_of_input Sample.broken_env
                (mk_cmdline [] ["model"; "reads.blow5"])
                Sample.defaults [] "model" "reads.blow5" Sample.broken_input)
      as [_ B]; try reflexivity.
    destruct B as [S W].
    + intros [H _]. discriminate H.
    + cbv zeta. rewrite W. split; [exact S | reflexivity].
Defined.

(** C4.  For a run that reaches the read loop on a reader that ends with a
    negative return: the identifiers written are those of the records in
    the order the reader delivered them, one finished read per record.
    Within a read, when the stitcher is the one of the specification, the
    chunker returned for each record the chunks of the specification's
    iteration and [basecall_chunks] left every chunk at its place (the same
    start offsets, index for index): the chunks that reach the stitcher are
    in strictly increasing start-offset order, and the sequence and the
    quality string written for the record are one segment of calls per
    chunk, the same segments for both, concatenated in that order. *)
Theorem C4_output_order {X : Externals} (cl : cmdline) (opt : opt_t)
        (t0 : list event) (model data : string) (sp : slow5_file) :
  parse_args (options cl) (init_opt, stderr) = Running (opt, stderr) t0 ->
  positionals cl = [model; data] ->
  slow5_open data = Some sp ->
  end_ret sp < 0 ->
  let mr := mk_runner model (device opt) (chunk_size opt) (batch_size opt) in
  let written := writes (trace_of (basecaller_main cl)) in
  map (fun w => fst (fst w)) written = map read_id (records sp)
  /\
  written
  = map (fun rec => (read_id rec,
                     fst (stitch_chunks (read_chunks opt mr rec)),
                     snd (stitch_chunks (read_chunks opt mr rec)))) (records sp)
  /\
  (forall cut_index : Chunk -> Chunk -> Z -> nat * nat,
      (forall chunks, stitch_chunks chunks = Stitcher.stitch_chunks cut_index chunks) ->
      (forall rec, In rec (records sp) ->
                   exists L, Chunker.chunks_of_signal L (chunk_size opt) (overlap opt)
                             = Some (raw_chunks opt rec)) ->
      (forall rec, In rec (records sp) ->
                   map start_offset (read_chunks opt mr rec)
                   = map start_offset (raw_chunks opt rec)) ->
      Forall2
        (fun rec w =>
           Chunker.increasing_offsets (read_chunks opt mr rec) /\
           exists segs,
             List.length segs = List.length (read_chunks opt mr rec) /\
             w = (read_id rec,
                  Stitcher.pieces call_seq (read_chunks opt mr rec) segs,
                  Stitcher.pieces call_qstring (read_chunks opt mr rec) segs))
        (records sp) written).
Proof.
  intros Ep Hp Ho Hneg mr written.
  destruct (basecaller_main_reads cl opt t0 model data sp Ep Hp Ho Hneg)
    as (t & E & W & _).
  assert (Hw : written = map (finished_read opt mr) (records sp)).
  { unfold written. rewrite E.
    destruct (negb (end_errno sp =? SLOW5_ERR_EOF));
      [|destruct (negb (end_ret sp =? SLOW5_ERR_EOF))]; exact W. }
  split; [|split].
  - rewrite Hw, map_map. reflexivity.
  - exact Hw.
  - intros cut_index Hst Hchunker Hkeep. rewrite Hw.
    clear E W Hw written. induction (records sp) as [|rec recs IH];
      [constructor|].
    cbn [map]. constructor.
    + split.
      * destruct (Hchunker rec (or_introl eq_refl)) as [L HL].
        apply (ChunkerFacts.increasing_offsets_same (raw_chunks opt rec)).
        -- apply Hkeep. left. reflexivity.
        -- exact (ChunkerFacts.chunks_of_signal_increasing _ _ _ _ HL).
      * destruct (StitcherFacts.stitch_chunks_pieces cut_index
                    (read_chunks opt mr rec)) as (segs & Hlen & Es).
        exists segs. split; [exact Hlen|].
        unfold finished_read, basecall_read. rewrite Hst, Es. reflexivity.
    + apply IH.
      * intros r Hr. apply Hchunker. right. exact Hr.
      * intros r Hr. apply Hkeep. right. exact Hr.
Qed.

(** C4, witness: the sample input with chunks of 4 samples and an overlap
    of 1 (two, one and two chunks): three reads in, three reads out, each
    made of its chunks in order. *)
Lemma C4_output_order_witness :
  let cl := mk_cmdline [Sample.short "c" "4"; Sample.short "p" "1"]
                       ["model"; "reads.blow5"] in
  let opt := set_overlap (set_chunk_size Sample.defaults 4) 1 in
  let mr := mk_runner "model" "cpu" 4 512 in
  Forall2
    (fun rec w =>
       Chunker.increasing_offsets (@read_chunks Sample.env opt mr rec) /\
       exists segs,
         List.length segs = List.length (@read_chunks Sample.env opt mr rec) /\
         w = (read_id rec,
              Stitcher.pieces call_seq (@read_chunks Sample.env opt mr rec) segs,
              Stitcher.pieces call_qstring (@read_chunks Sample.env opt mr rec) segs))
    (records Sample.input)
    (writes (trace_of (@basecaller_main Sample.env cl))).
Proof.
  intros cl opt mr.
  destruct (@C4_output_order Sample.env cl opt [] "model" "reads.blow5" Sample.input)
    as (_ & _ & H); [reflexivity | reflexivity | reflexivity | reflexivity |].
  apply (H Sample.midpoint).
  - intros chunks. reflexivity.
  - intros rec [<- | [<- | [<- | []]]]; [exists 7 | exists 3 | exists 5]; reflexivity.
  - intros rec [<- | [<- | [<- | []]]]; reflexivity.
Defined.

(* ===================================================================== *)
(** ** Stitching a single chunk *)
(* ===================================================================== *)

(** C8.  With the stitcher of the specification, whatever its cut rule: a
    read whose chunks, as they reach the stitcher, are a single chunk is
    written with exactly that chunk's sequence and quality string. *)
Theorem C8_stitch_single_chunk {X : Externals}
        (cut_index : Chunk -> Chunk -> Z -> nat * nat)
        (opt : opt_t) (mr : ModelRunner) (rec : slow5_rec) (ch : Chunk) :
  (forall chunks, stitch_chunks chunks = Stitcher.stitch_chunks cut_index chunks) ->
  read_chunks opt mr rec = [ch] ->
  Stitcher.stitch_chunks cut_index [ch] = (call_seq ch, call_qstring ch) /\
  basecall_read opt mr rec = (call_seq ch, call_qstring ch) /\
  finished_read opt mr rec = (read_id rec, call_seq ch, call_qstring ch).
Proof.
  intros Hst Hch.
  pose proof (StitcherFacts.stitch_single cut_index ch) as Hs.
  assert (Hb : basecall_read opt mr rec = (call_seq ch, call_qstring ch)).
  { unfold basecall_read. rewrite Hch, Hst. exact Hs. }
  split; [exact Hs|]. split; [exact Hb|].
  unfold finished_read. rewrite Hb. reflexivity.
Qed.

(** C8, witness: the second read of the sample input, three samples in one
    chunk. *)
Lemma C8_stitch_single_chunk_witness :
  @finished_read Sample.env Sample.defaults
     (mk_runner "model" "cpu" 8000 512) (mk_rec "read_b" [20; 21; 22])
  = ("read_b", "A", "#").
Proof.
  apply (@C8_stitch_single_chunk Sample.env Sample.midpoint Sample.defaults
           (mk_runner "model" "cpu" 8000 512) (mk_rec "read_b" [20; 21; 22])
           (mk_chunk 0 3 "A" "#" [0])).
  - intros chunks. reflexivity.
  - reflexivity.
Defined.

(* ===================================================================== *)
(** ** The chunks of a signal *)
(* ===================================================================== *)

(** C2.  For a signal of L samples, a chunk size C > 0 and an overlap O
    with 0 <= O < C, the chunker finishes, and its chunks: lie within the
    signal and cover every offset of [0, L); have length exactly C, each
    one that is followed by another; start strictly after their
    predecessor and share exactly O samples with it. *)
Theorem C2_chunker_layout (L C V : Z) :
  0 <= L -> 0 < C -> 0 <= V < C ->
  exists cs,
    Chunker.chunks_of_signal L C V = Some cs /\
    (forall p, 0 <= p < L -> exists ch, In ch cs /\ Chunker.covers ch p) /\
    (forall ch, In ch cs -> 0 <= start_offset ch /\ Chunker.chunk_end ch <= L) /\
    (forall i a b,
        nth_error cs i = Some a -> nth_error cs (S i) = Some b ->
        chunk_len a = C /\
        start_offset a < start_offset b /\
        Chunker.shared a b = V).
Proof.
  intros HL HC HV.
  destruct (ChunkerFacts.chunks_of_signal_chain L C V HC HV HL) as (cs & E & Hch).
  exists cs. split; [exact E|]. split; [|split].
  - intros p Hp. apply (ChunkerFacts.chain_covers L C V HV cs 0 p Hch). lia.
  - apply (ChunkerFacts.chain_within L C V HV cs 0 Hch). lia.
  - intros i a b. apply (ChunkerFacts.chain_adjacent L C V HV cs 0 i a b Hch).
Qed.

(** C2, witness: 20 samples in chunks of 8 with an overlap of 2. *)
Lemma C2_chunker_layout_witness :
  exists cs,
    Chunker.chunks_of_signal 20 8 2 = Some cs /\
    (forall p, 0 <= p < 20 -> exists ch, In ch cs /\ Chunker.covers ch p) /\
    (forall ch, In ch cs -> 0 <= start_offset ch /\ Chunker.chunk_end ch <= 20) /\
    (forall i a b,
        nth_error cs i = Some a -> nth_error cs (S i) = Some b ->
        chunk_len a = 8 /\
        start_offset a < start_offset b /\
        Chunker.shared a b = 2).
Proof.
  apply (C2_chunker_layout 20 8 2); lia.
Defined.

(* ===================================================================== *)
(** ** The trace monad *)
(* ===================================================================== *)

Lemma bind_ret_l {A B} (a : A) (k : A -> outcome B) : bind (Running a []) k = k a.
Proof. unfold bind. destruct (k a); reflexivity. Qed.

Lemma forallb_loop_before_input (t : list event) :
  forallb loop_event t = true -> before_input t.
Proof.
  unfold before_input. induction t as [|e t IH]; [reflexivity|].
  cbn [forallb]. intros H. apply andb_prop in H. destruct H as [He Ht].
  rewrite (IH Ht), andb_true_r.
  destruct e as [fp m| | | | | | |]; try discriminate He; reflexivity.
Qed.

Lemma forallb_loop_no_help (t : list event) :
  forallb loop_event t = true -> existsb is_help t = false.
Proof.
  induction t as [|e t IH]; [reflexivity|].
  cbn [forallb existsb]. intros H. apply andb_prop in H. destruct H as [He Ht].
  rewrite (IH Ht), orb_false_r.
  destruct e as [fp m| | | | | | |]; try reflexivity.
  destruct fp, m; try discriminate He; reflexivity.
Qed.

Lemma before_input_filter (t : list event) :
  before_input t -> filter input_event t = [].
Proof.
  unfold before_input. induction t as [|e t IH]; [reflexivity|].
  cbn [forallb filter]. intros H. apply andb_prop in H. destruct H as [He Ht].
  apply negb_true_iff in He. rewrite He. auto.
Qed.

Lemma before_input_not_in (t : list event) (e : event) :
  before_input t -> In e t -> input_event e = false.
Proof.
  unfold before_input. intros H Hin.
  rewrite forallb_forall in H. apply negb_true_iff. exact (H e Hin).
Qed.

Lemma fopens_app (t1 t2 : list event) : fopens (t1 ++ t2) = fopens t1 ++ fopens t2.
Proof.
  induction t1 as [|e t1 IH]; [reflexivity|].
  destruct e; cbn [app fopens]; rewrite ?IH; reflexivity.
Qed.

Lemma write_streams_app (t1 t2 : list event) :
  write_streams (t1 ++ t2) = write_streams t1 ++ write_streams t2.
Proof.
  induction t1 as [|e t1 IH]; [reflexivity|].
  destruct e; cbn [app write_streams]; rewrite ?IH; reflexivity.
Qed.

Lemma runner_events_app (t1 t2 : list event) :
  runner_events (t1 ++ t2) = runner_events t1 ++ runner_events t2.
Proof.
  induction t1 as [|e t1 IH]; [reflexivity|].
  destruct e; cbn [app runner_events]; rewrite ?IH; reflexivity.
Qed.

Lemma before_input_no_writes_runners (t : list event) :
  before_input t -> write_streams t = [] /\ runner_events t = [].
Proof.
  unfold before_input. induction t as [|e t IH]; [split; reflexivity|].
  cbn [forallb]. intros H. apply andb_prop in H. destruct H as [He Ht].
  destruct (IH Ht) as [W R].
  destruct e; try discriminate He; cbn [write_streams runner_events]; auto.
Qed.

(* ===================================================================== *)
(** ** More on the option loop *)
(* ===================================================================== *)

Section OptionLoopMore.

Context {X : Externals}.

Lemma parse_args_app (rs1 rs2 : list getopt_result) :
  forall st : opt_t * FILEp,
    parse_args (rs1 ++ rs2) st = bind (parse_args rs1 st) (parse_args rs2).
Proof.
  induction rs1 as [|r rs1 IH]; intros st.
  - cbn [app parse_args]. unfold ret. rewrite bind_ret_l. reflexivity.
  - cbn [app]. rewrite !parse_args_cons.
    destruct (parse_option st r) as [st' t | s t |]; cbn [bind]; try reflexivity.
    rewrite IH.
    destruct (parse_args rs1 st') as [st'' t' | s t' |]; cbn [bind]; try reflexivity.
    destruct (parse_args rs2 st'') as [st3 t3 | s t3 |];
      rewrite ?app_assoc; reflexivity.
Qed.

(** An option without a branch changes nothing and prints nothing. *)
Lemma parse_option_unhandled (st : opt_t * FILEp) (r : getopt_result) :
  handled r = false -> parse_option st r = Running st [].
Proof.
  destruct st as [opt fp]. destruct r as [ch li arg].
  unfold handled, parse_option. cbn [c longindex optarg existsb].
  option_cases; try discriminate; intros H;
    repeat match goal with
           | |- context [?a =? ?b] => destruct (a =? b) eqn:?; simpl in *
           end;
    try discriminate; reflexivity.
Qed.

(** Whatever the option, the loop does only what [loop_event] lists. *)
Lemma parse_option_loop_events (st : opt_t * FILEp) (r : getopt_result) :
  parse_option st r <> Diverged /\
  forallb loop_event (trace_of (parse_option st r)) = true.
Proof.
  destruct st as [opt fp]. destruct r as [ch li arg].
  unfold parse_option. cbn [c longindex optarg].
  option_cases; test_cases; split; try discriminate; reflexivity.
Qed.

Lemma parse_args_loop_events (rs : list getopt_result) :
  forall st : opt_t * FILEp,
    parse_args rs st <> Diverged /\
    forallb loop_event (trace_of (parse_args rs st)) = true.
Proof.
  induction rs as [|r rs IH]; intros st.
  - split; [discriminate | reflexivity].
  - rewrite parse_args_cons.
    destruct (parse_option_loop_events st r) as [Hd Ht].
    destruct (parse_option st r) as [st' t | s t |]; [| |contradiction].
    + destruct (IH st') as [Hd' Ht'].
      cbn [bind]. cbn [trace_of] in Ht.
      destruct (parse_args rs st') as [st'' t' | s t' |]; [| |contradiction];
        cbn [trace_of] in *; (split; [discriminate|]);
        rewrite forallb_app, Ht, Ht'; reflexivity.
    + cbn [bind]. split; [discriminate | exact Ht].
Qed.

(** An accepted option: the device, the output stream and the files
    opened. *)
Lemma parse_option_accepted_more (opt : opt_t) (fp : FILEp) (r : getopt_result) :
  accepts r = true ->
  exists opt' fp' t,
    parse_option (opt, fp) r = Running (opt', fp') t /\
    device opt' = (if opt_is (c r) "x" then optarg r else device opt) /\
    out opt' = (if opt_is (c r) "o" then fopened (optarg r) else out opt) /\
    fopens t = (if opt_is (c r) "o" then [optarg r] else []).
Proof.
  destruct r as [ch li arg]. unfold accepts, parse_option. simpl.
  option_cases; intros Hacc; try discriminate;
    try (apply Z.ltb_lt in Hacc); try (apply Z.leb_le in Hacc);
    test_cases; try lia; try discriminate;
    eexists; eexists; eexists; (split; [reflexivity|]); repeat split.
Qed.

Lemma last_string_cons (ch : ascii) (r : getopt_result) (rs : list getopt_result)
      (d : string) :
  last_string ch (r :: rs) d
  = last_string ch rs (if opt_is (c r) ch then optarg r else d).
Proof. reflexivity. Qed.

Lemma last_out_cons (r : getopt_result) (rs : list getopt_result) (d : FILEp) :
  last_out (r :: rs) d
  = last_out rs (if opt_is (c r) "o" then fopened (optarg r) else d).
Proof. reflexivity. Qed.

Lemma option_args_cons (ch : ascii) (r : getopt_result) (rs : list getopt_result) :
  option_args ch (r :: rs)
  = (if opt_is (c r) ch then [optarg r] else []) ++ option_args ch rs.
Proof.
  unfold option_args. cbn [filter]. destruct (opt_is (c r) ch); reflexivity.
Qed.

Lemma parse_args_accepted_more (rs : list getopt_result) :
  forall (opt : opt_t) (fp : FILEp),
    forallb accepts rs = true ->
    exists opt' fp' t,
      parse_args rs (opt, fp) = Running (opt', fp') t /\
      device opt' = last_string "x" rs (device opt) /\
      out opt' = last_out rs (out opt) /\
      fopens t = option_args "o" rs.
Proof.
  induction rs as [|r rs IH]; intros opt fp Hall.
  - exists opt, fp, []. repeat split.
  - cbn [forallb] in Hall. apply andb_prop in Hall. destruct Hall as [Hr Hrs].
    destruct (parse_option_accepted_more opt fp r Hr)
      as (opt1 & fp1 & t1 & E1 & Hd & Ho & Hf).
    destruct (IH opt1 fp1 Hrs) as (opt2 & fp2 & t2 & E2 & Hd2 & Ho2 & Hf2).
    exists opt2, fp2, (t1 ++ t2).
    rewrite parse_args_cons, E1. cbn [bind]. rewrite E2.
    rewrite last_string_cons, last_out_cons, option_args_cons, <- Hd, <- Ho.
    rewrite fopens_app, Hf, Hf2. repeat split; assumption.
Qed.

End OptionLoopMore.

(* ===================================================================== *)
(** ** Further properties of the option loop *)
(* ===================================================================== *)

(** X1.  An option the loop has no branch for (the '?' that [getopt_long]
    returns for an unknown option or a missing argument, a long option at
    another index) is ignored by [basecaller_main]: its outcome and every
    action of its own (what it prints, opens, reads and writes) are those
    of the command line without the option.  The diagnostic that
    [getopt_long] prints itself for such an option is the library's and is
    not among these actions. *)
Theorem X1_unhandled_option_ignored {X : Externals}
        (pre post : list getopt_result) (r : getopt_result) (args : list string) :
  handled r = false ->
  basecaller_main (mk_cmdline (pre ++ r :: post) args)
  = basecaller_main (mk_cmdline (pre ++ post) args).
Proof.
  intros H. rewrite !basecaller_main_unfold. cbn [options].
  rewrite !parse_args_app.
  destruct (parse_args pre (init_opt, stderr)) as [st t | s t |];
    cbn [bind]; try reflexivity.
  rewrite parse_args_cons, (parse_option_unhandled st r H), bind_ret_l.
  reflexivity.
Qed.

(** X1, witness: an unknown option between [-c 4] and [-p 1]. *)
Lemma X1_unhandled_option_ignored_witness :
  @basecaller_main Sample.env
    (mk_cmdline ([Sample.short "c" "4"] ++ Sample.short "?" EmptyString
                   :: [Sample.short "p" "1"]) ["model"; "reads.blow5"])
  = @basecaller_main Sample.env
      (mk_cmdline ([Sample.short "c" "4"] ++ [Sample.short "p" "1"])
                  ["model"; "reads.blow5"]).
Proof.
  apply (@X1_unhandled_option_ignored Sample.env). reflexivity.
Defined.

(** X2.  The number of threads ([-t]) and the number of runners ([-r]) are
    refused exactly when the value is less than 1, the maximum number of
    bytes ([-B]) exactly when [mm_parse_num] gives a value that is not
    positive; the run then ends with failure at that option, before the
    input is opened. *)
Theorem X2_threads_runners_bytes {X : Externals} (cl : cmdline) :
  (forall (opt : opt_t) (fp : FILEp) (r : getopt_result),
      (c r = "t" \/ c r = "r")%char ->
      (exists t, parse_option (opt, fp) r = Exited EXIT_FAILURE t)
      <-> atoi (optarg r) < 1)
  /\
  (forall (opt : opt_t) (fp : FILEp) (r : getopt_result),
      (c r = "B")%char ->
      (exists t, parse_option (opt, fp) r = Exited EXIT_FAILURE t)
      <-> mm_parse_num (optarg r) <= 0)
  /\
  (forall (pre post : list getopt_result) (r : getopt_result),
      options cl = pre ++ r :: post ->
      forallb accepts pre = true ->
      ((c r = "t" \/ c r = "r")%char /\ atoi (optarg r) < 1) \/
      ((c r = "B")%char /\ mm_parse_num (optarg r) <= 0) ->
      exists t, basecaller_main cl = Exited EXIT_FAILURE t /\ before_input t).
Proof.
  assert (Hacc : forall r, (c r = "t" \/ c r = "r")%char ->
                           accepts r = (1 <=? atoi (optarg r))).
  { intros [ch li arg] H. cbn [c] in H. unfold accepts. cbn [c optarg].
    destruct H as [-> | ->]; reflexivity. }
  assert (HaccB : forall r, (c r = "B")%char ->
                            accepts r = (0 <? mm_parse_num (optarg r))).
  { intros [ch li arg] H. cbn [c] in H. unfold accepts. cbn [c optarg].
    rewrite H. reflexivity. }
  assert (HV : forall r, (c r = "t" \/ c r = "r" \/ c r = "B")%char ->
                         opt_is (c r) "V" = false).
  { intros [ch li arg] H. cbn [c] in *. destruct H as [-> | [-> | ->]]; reflexivity. }
  assert (Hiff : forall opt fp r, (c r = "t" \/ c r = "r" \/ c r = "B")%char ->
            (exists t, parse_option (opt, fp) r = Exited EXIT_FAILURE t)
            <-> accepts r = false).
  { intros opt fp r Hc. split.
    - intros [t E]. destruct (accepts r) eqn:Ha; [|reflexivity].
      destruct (parse_option_accepted opt fp r Ha) as (o & t' & E' & _).
      rewrite E' in E. discriminate.
    - intros Ha. destruct (parse_option_refused opt fp r Ha) as (t & E & _).
      rewrite (HV r Hc) in E. exists t. exact E. }
  split; [|split].
  - intros opt fp r Hc. rewrite Hiff by tauto. rewrite (Hacc r Hc).
    rewrite Z.leb_gt. lia.
  - intros opt fp r Hc. rewrite Hiff by tauto. rewrite (HaccB r Hc).
    rewrite Z.ltb_ge. lia.
  - intros pre post r Hcl Hpre Hr.
    assert (Ha : accepts r = false /\ opt_is (c r) "V" = false).
    { destruct Hr as [[Hc Hlt] | [Hc Hle]].
      - split; [rewrite (Hacc r Hc); apply Z.leb_gt; lia | apply HV; tauto].
      - split; [rewrite (HaccB r Hc); apply Z.ltb_ge; lia | apply HV; tauto]. }
    destruct Ha as [Ha Hv].
    destruct (parse_args_refused pre post r init_opt stderr Hpre Ha) as (t & E & B).
    rewrite Hv, <- Hcl in E.
    exists t. split; [apply basecaller_main_exit_in_loop; exact E | exact B].
Qed.

(** X2, witness: [-c 100 -t 0] ends with failure at [-t]. *)
Lemma X2_threads_runners_bytes_witness :
  exists t,
    @basecaller_main Sample.env
      (mk_cmdline [Sample.short "c" "100"; Sample.short "t" "0"]
                  ["model"; "reads.blow5"])
    = Exited EXIT_FAILURE t /\ before_input t.
Proof.
  destruct (@X2_threads_runners_bytes Sample.env
              (mk_cmdline [Sample.short "c" "100"; Sample.short "t" "0"]
                          ["model"; "reads.blow5"])) as (_ & _ & H).
  apply (H [Sample.short "c" "100"] [] (Sample.short "t" "0")).
  - reflexivity.
  - reflexivity.
  - left. split; [left; reflexivity | vm_compute; reflexivity].
Defined.

(** A string that does not go on with a digit converts to 0. *)
Lemma digits_no_digit (s : string) :
  match s with
  | String a _ => digit_of a = None
  | EmptyString => True
  end ->
  digits 0 s = 0.
Proof.
  destruct s as [|a s]; [reflexivity|]. cbn [digits]. intros ->. reflexivity.
Qed.

Lemma atoi_not_a_number (s : string) : starts_number s = false -> atoi s = 0.
Proof.
  unfold starts_number, atoi, strtol.
  destruct (skip_space s) as [|a r]; [reflexivity|].
  assert (Hd : forall u : string,
             match u with
             | String b _ => match digit_of b with Some _ => true | None => false end
             | EmptyString => false
             end = false -> digits 0 u = 0).
  { intros u Hu. apply digits_no_digit. destruct u as [|b u]; [exact I|].
    destruct (digit_of b); [discriminate | reflexivity]. }
  destruct a as [[] [] [] [] [] [] [] []]; intros H; cbv beta iota;
    first [ rewrite (Hd _ H); reflexivity
          | match type of H with
            | match digit_of ?b with _ => _ end = false =>
                rewrite (Hd (String b r) H); reflexivity
            end ].
Qed.

(** X3.  An argument of [-c], [-p], [-K], [-t] or [-r] that is not a number
    (empty, or going on, after white space and an optional sign, with
    something else than a digit) is converted to 0 and refused: the run
    ends with failure at that option, before the input is opened. *)
Theorem X3_not_a_number_refused {X : Externals} (cl : cmdline)
        (pre post : list getopt_result) (r : getopt_result) :
  options cl = pre ++ r :: post ->
  forallb accepts pre = true ->
  (c r = "c" \/ c r = "p" \/ c r = "K" \/ c r = "t" \/ c r = "r")%char ->
  starts_number (optarg r) = false ->
  exists t, basecaller_main cl = Exited EXIT_FAILURE t /\ before_input t.
Proof.
  intros Hcl Hpre Hc Hn.
  pose proof (atoi_not_a_number _ Hn) as H0.
  assert (Ha : accepts r = false /\ opt_is (c r) "V" = false).
  { destruct r as [ch li arg]. cbn [c optarg] in *. unfold accepts.
    cbn [c optarg]. rewrite H0.
    destruct Hc as [-> | [-> | [-> | [-> | ->]]]]; split; reflexivity. }
  destruct Ha as [Ha Hv].
  destruct (parse_args_refused pre post r init_opt stderr Hpre Ha) as (t & E & B).
  rewrite Hv, <- Hcl in E.
  exists t. split; [apply basecaller_main_exit_in_loop; exact E | exact B].
Qed.

(** X3, witness: [-K 8 -c large]. *)
Lemma X3_not_a_number_refused_witness :
  exists t,
    @basecaller_main Sample.env
      (mk_cmdline [Sample.short "K" "8"; Sample.short "c" "large"]
                  ["model"; "reads.blow5"])
    = Exited EXIT_FAILURE t /\ before_input t.
Proof.
  apply (@X3_not_a_number_refused Sample.env
           (mk_cmdline [Sample.short "K" "8"; Sample.short "c" "large"]
                       ["model"; "reads.blow5"])
           [Sample.short "K" "8"] [] (Sample.short "c" "large")).
  - reflexivity.
  - reflexivity.
  - left. reflexivity.
  - reflexivity.
Defined.

(** X4.  At the first option that is refused the run ends inside the option
    loop: with success when that option is [-V], with failure otherwise.
    Nothing of the input is opened, and no help message is printed, also
    when [-h] came before. *)
Theorem X4_exit_inside_loop {X : Externals} (cl : cmdline)
        (pre post : list getopt_result) (r : getopt_result) :
  options cl = pre ++ r :: post ->
  forallb accepts pre = true ->
  accepts r = false ->
  exists t,
    basecaller_main cl
    = Exited (if opt_is (c r) "V" then EXIT_SUCCESS else EXIT_FAILURE) t /\
    before_input t /\
    existsb is_help t = false.
Proof.
  intros Hcl Hpre Hr.
  destruct (parse_args_refused pre post r init_opt stderr Hpre Hr) as (t & E & B).
  rewrite <- Hcl in E. exists t.
  split; [apply basecaller_main_exit_in_loop; exact E|]. split; [exact B|].
  destruct (parse_args_loop_events (options cl) (init_opt, stderr)) as [_ Hl].
  rewrite E in Hl. apply forallb_loop_no_help. exact Hl.
Qed.

(** X4, witness: [-h -V] prints the version, not the help. *)
Lemma X4_exit_inside_loop_witness :
  exists t,
    @basecaller_main Sample.env
      (mk_cmdline [Sample.short "h" EmptyString; Sample.short "V" EmptyString] [])
    = Exited EXIT_SUCCESS t /\
    before_input t /\ existsb is_help t = false.
Proof.
  apply (@X4_exit_inside_loop Sample.env
           (mk_cmdline [Sample.short "h" EmptyString; Sample.short "V" EmptyString] [])
           [Sample.short "h" EmptyString] [] (Sample.short "V" EmptyString));
    reflexivity.
Defined.

(* ===================================================================== *)
(** ** The trace of a run that reads the input *)
(* ===================================================================== *)

Section ReadingRun.

Context {X : Externals}.

Lemma trace_of_ending (sp : slow5_file) (t : list event) :
  trace_of (ending sp t) = t.
Proof.
  unfold ending. destruct (negb _); [reflexivity|]. destruct (negb _); reflexivity.
Qed.

Lemma read_loop_trace (opt : opt_t) (mr : ModelRunner) (recs : list slow5_rec)
      (e_ret e_errno : Z) :
  e_ret < 0 ->
  read_loop opt mr recs e_ret e_errno
  = Running (if negb (e_errno =? SLOW5_ERR_EOF)
             then Return EXIT_FAILURE else Break e_ret)
            (flat_map (read_events opt mr) recs ++ [Slow5GetNext e_ret]).
Proof.
  intros Hneg. induction recs as [|rec rest IH].
  - cbn [read_loop flat_map app]. apply Z.ltb_lt in Hneg. rewrite Hneg.
    destruct (negb (e_errno =? SLOW5_ERR_EOF)); reflexivity.
  - rewrite read_loop_cons, IH. cbn [flat_map]. unfold read_events at 2.
    destruct (basecall_read opt mr rec) as [s q]. reflexivity.
Qed.

Lemma run_reads_trace (opt : opt_t) (model : string) (sp : slow5_file) :
  end_ret sp < 0 ->
  let mr := mk_runner model (device opt) (chunk_size opt) (batch_size opt) in
  run_reads opt model sp
  = ending sp (NewModelRunner mr :: flat_map (read_events opt mr) (records sp)
                 ++ [Slow5GetNext (end_ret sp)] ++ end_events sp).
Proof.
  intros Hneg mr. unfold run_reads. fold mr.
  rewrite (read_loop_trace opt mr (records sp) (end_ret sp) (end_errno sp) Hneg).
  unfold ending, end_events.
  destruct (end_errno sp =? SLOW5_ERR_EOF) eqn:Ee; cbn [negb].
  - cbn [bind emit ret exit app].
    destruct (end_ret sp =? SLOW5_ERR_EOF) eqn:Er; cbn [negb app];
      rewrite <- app_assoc; reflexivity.
  - cbn [bind emit ret exit app]. rewrite !app_nil_r. reflexivity.
Qed.

(** The outcome and the whole trace of a run that reaches the read loop. *)
Lemma basecaller_main_trace (cl : cmdline) (opt : opt_t) (t0 : list event)
      (model data : string) (sp : slow5_file) :
  parse_args (options cl) (init_opt, stderr) = Running (opt, stderr) t0 ->
  positionals cl = [model; data] ->
  slow5_open data = Some sp ->
  end_ret sp < 0 ->
  basecaller_main cl = ending sp (t0 ++ reading_trace opt model data sp).
Proof.
  intros Ep Hp Ho Hneg.
  rewrite basecaller_main_unfold, Ep. cbn [bind].
  rewrite (after_options_reads cl opt model data sp Hp Ho).
  rewrite (run_reads_trace opt model sp Hneg).
  unfold ending, reading_trace.
  destruct (negb (end_errno sp =? SLOW5_ERR_EOF));
    [|destruct (negb (end_ret sp =? SLOW5_ERR_EOF))]; reflexivity.
Qed.

(** The options accepted throughout: the state the loop ends in. *)
Lemma parse_args_fields (rs : list getopt_result) (opt : opt_t) (fp : FILEp) :
  forallb accepts rs = true ->
  exists opt' t,
    parse_args rs (opt, fp)
    = Running (opt', if has_help rs then stdout else fp) t /\
    forallb loop_event t = true /\
    fopens t = option_args "o" rs /\
    chunk_size opt' = last_value "c" rs (chunk_size opt) /\
    overlap opt' = last_value "p" rs (overlap opt) /\
    batch_size opt' = last_value "K" rs (batch_size opt) /\
    device opt' = last_string "x" rs (device opt) /\
    out opt' = last_out rs (out opt).
Proof.
  intros Hall.
  destruct (parse_args_accepted rs opt fp Hall) as (o1 & t1 & E1 & _ & Hc & Hp & Hk).
  destruct (parse_args_accepted_more rs opt fp Hall)
    as (o2 & fp2 & t2 & E2 & Hd & Ho & Hf).
  rewrite E1 in E2. injection E2 as <- _ <-.
  destruct (parse_args_loop_events rs (opt, fp)) as [_ Hl].
  rewrite E1 in Hl. cbn [trace_of] in Hl.
  exists o1, t1. repeat split; assumption.
Qed.

Lemma read_events_input (opt : opt_t) (mr : ModelRunner) (recs : list slow5_rec) :
  fopens (flat_map (read_events opt mr) recs) = [] /\
  write_streams (flat_map (read_events opt mr) recs) = map (fun _ => out opt) recs /\
  runner_events (flat_map (read_events opt mr) recs) = [] /\
  (forall d, ~ In (Slow5Open d) (flat_map (read_events opt mr) recs)).
Proof.
  induction recs as [|rec rest (F & W & R & O)].
  - repeat split. intros d [].
  - cbn [flat_map read_events app fopens write_streams runner_events map].
    rewrite F, W, R. repeat split.
    intros d [H | [H | H]]; try discriminate. exact (O d H).
Qed.

Lemma end_events_input (sp : slow5_file) :
  fopens (end_events sp) = [] /\ write_streams (end_events sp) = [] /\
  runner_events (end_events sp) = [] /\
  (forall d, ~ In (Slow5Open d) (end_events sp)).
Proof.
  unfold end_events. destruct (negb _); [|destruct (negb _)]; repeat split;
    intros d H; cbn in H; intuition discriminate.
Qed.

End ReadingRun.

(* ===================================================================== *)
(** ** Further properties of the run *)
(* ===================================================================== *)

(** X5.  The input is opened only by a run whose options were all accepted,
    without [-h], and with exactly two arguments, the second of which is
    the path opened. *)
Theorem X5_input_opened_only_if {X : Externals} (cl : cmdline) (d : string) :
  In (Slow5Open d) (trace_of (basecaller_main cl)) ->
  forallb accepts (options cl) = true /\
  has_help (options cl) = false /\
  exists model, positionals cl = [model; d].
Proof.
  intros Hin.
  destruct (first_refused (options cl)) as [Hall | (pre & r & post & E & Hp & Hr)].
  2:{ destruct (parse_args_refused pre post r init_opt stderr Hp Hr) as (t & Et & B).
      rewrite <- E in Et.
      rewrite (basecaller_main_exit_in_loop cl _ t Et) in Hin.
      pose proof (before_input_not_in t _ B Hin). discriminate. }
  destruct (parse_args_accepted (options cl) init_opt stderr Hall)
    as (opt & t & E & B & _).
  rewrite basecaller_main_unfold, E in Hin. cbn [bind] in Hin.
  assert (Hhelp : forall fp,
             fp = stdout \/ List.length (positionals cl) <> 2%nat ->
             ~ In (Slow5Open d) (t ++ [Fprintf fp (MHelp opt)])).
  { intros fp _ H. apply in_app_or in H. destruct H as [H | [H | []]].
    - pose proof (before_input_not_in t _ B H). discriminate.
    - discriminate. }
  split; [exact Hall|].
  destruct (has_help (options cl)) eqn:Hh.
  { exfalso. rewrite after_options_help in Hin by (left; reflexivity).
    apply (Hhelp stdout) in Hin; [exact Hin | left; reflexivity]. }
  split; [reflexivity|].
  destruct (Nat.eq_dec (List.length (positionals cl)) 2) as [Hlen | Hlen].
  2:{ exfalso. rewrite after_options_help in Hin by (right; exact Hlen).
      apply (Hhelp stderr) in Hin; [exact Hin | right; exact Hlen]. }
  destruct (positionals cl) as [|model [|data [|x l]]] eqn:Hpos;
    try discriminate Hlen.
  exists model. enough (Hd : data = d) by (rewrite Hd; reflexivity).
  destruct (slow5_open data) as [sp|] eqn:Ho.
  - rewrite (after_options_reads cl opt model data sp Hpos Ho) in Hin.
    destruct (Z_lt_le_dec (end_ret sp) 0) as [Hneg | Hpos'].
    + rewrite (run_reads_trace opt model sp Hneg) in Hin.
      unfold ending in Hin.
      assert (Ht : In (Slow5Open d)
                      (t ++ [Fprintf stderr (MSummary model data opt); Slow5Open data]
                         ++ NewModelRunner
                              (mk_runner model (device opt) (chunk_size opt)
                                         (batch_size opt))
                         :: flat_map
                              (read_events opt
                                 (mk_runner model (device opt) (chunk_size opt)
                                            (batch_size opt))) (records sp)
                         ++ [Slow5GetNext (end_ret sp)] ++ end_events sp)).
      { destruct (negb (end_errno sp =? SLOW5_ERR_EOF));
          [|destruct (negb (end_ret sp =? SLOW5_ERR_EOF))]; exact Hin. }
      clear Hin. apply in_app_or in Ht. destruct Ht as [H | H].
      { pose proof (before_input_not_in t _ B H). discriminate. }
      destruct H as [H | [H | [H | H]]]; try discriminate.
      * injection H as Hd. exact Hd.
      * exfalso. apply in_app_or in H. destruct H as [H | H].
        -- destruct (read_events_input opt
                       (mk_runner model (device opt) (chunk_size opt)
                                  (batch_size opt)) (records sp))
             as (_ & _ & _ & O).
           exact (O d H).
        -- destruct H as [H | H]; [discriminate|].
           destruct (end_events_input sp) as (_ & _ & _ & O). exact (O d H).
    + exfalso. unfold run_reads in Hin.
      rewrite read_loop_diverges in Hin by exact Hpos'. exact Hin.
  - unfold after_options in Hin. rewrite Hpos in Hin. cbn in Hin.
    rewrite Ho in Hin. cbn in Hin.
    apply in_app_or in Hin. destruct Hin as [H | H].
    + pose proof (before_input_not_in t _ B H). discriminate.
    + destruct H as [H | [H | [H | []]]]; try discriminate.
      injection H as Hd. exact Hd.
Qed.

(** X5, witness: the sample run opens the second argument. *)
Lemma X5_input_opened_only_if_witness :
  exists model, positionals (mk_cmdline [] ["model"; "reads.blow5"])
                = [model; "reads.blow5"].
Proof.
  apply (@X5_input_opened_only_if Sample.env
           (mk_cmdline [] ["model"; "reads.blow5"]) "reads.blow5").
  vm_compute. right. left. reflexivity.
Defined.

(** X6.  When the options are accepted, [-h] is absent, there are two
    arguments and the input does not open, the run prints the summary and
    the error, ends with failure, and constructs no runner. *)
Theorem X6_input_not_opened {X : Externals} (cl : cmdline) (model data : string) :
  forallb accepts (options cl) = true ->
  has_help (options cl) = false ->
  positionals cl = [model; data] ->
  slow5_open data = None ->
  exists opt t0,
    forallb loop_event t0 = true /\
    basecaller_main cl
    = Exited EXIT_FAILURE
        (t0 ++ [Fprintf stderr (MSummary model data opt); Slow5Open data;
                Fprintf stderr (MText "Error in opening slow5 file")]) /\
    runner_events (trace_of (basecaller_main cl)) = [] /\
    writes (trace_of (basecaller_main cl)) = [].
Proof.
  intros Hall Hh Hp Ho.
  destruct (parse_args_fields (options cl) init_opt stderr Hall)
    as (opt & t0 & E & Hl & _).
  rewrite Hh in E.
  assert (Em : basecaller_main cl
               = Exited EXIT_FAILURE
                   (t0 ++ [Fprintf stderr (MSummary model data opt); Slow5Open data;
                           Fprintf stderr (MText "Error in opening slow5 file")])).
  { rewrite basecaller_main_unfold, E. cbn [bind].
    unfold after_options. rewrite Hp. cbn. rewrite Ho. reflexivity. }
  exists opt, t0. split; [exact Hl|]. split; [exact Em|].
  rewrite Em. cbn [trace_of].
  pose proof (forallb_loop_before_input t0 Hl) as B.
  destruct (before_input_no_writes_runners t0 B) as [_ R].
  rewrite runner_events_app, writes_app, R, (before_input_writes t0 B).
  split; reflexivity.
Qed.

(** X6, witness: the sample environment opens no other path than
    [reads.blow5]. *)
Lemma X6_input_not_opened_witness :
  runner_events
    (trace_of (@basecaller_main Sample.env (mk_cmdline [] ["model"; "other.blow5"])))
  = [].
Proof.
  destruct (@X6_input_not_opened Sample.env
              (mk_cmdline [] ["model"; "other.blow5"]) "model" "other.blow5")
    as (opt & t0 & _ & _ & R & _);
    [reflexivity | reflexivity | reflexivity | reflexivity | exact R].
Defined.

(** X7.  In a run that reads the input, every [-o] of the command line is
    opened for writing, in order, and every finished read is written to
    the stream of the last [-o], or to the default stream when there is
    none. *)
Theorem X7_output_stream {X : Externals} (cl : cmdline) (model data : string)
        (sp : slow5_file) :
  forallb accepts (options cl) = true ->
  has_help (options cl) = false ->
  positionals cl = [model; data] ->
  slow5_open data = Some sp ->
  end_ret sp < 0 ->
  fopens (trace_of (basecaller_main cl)) = option_args "o" (options cl) /\
  write_streams (trace_of (basecaller_main cl))
  = map (fun _ => last_out (options cl) (out init_opt)) (records sp).
Proof.
  intros Hall Hh Hp Ho Hneg.
  destruct (parse_args_fields (options cl) init_opt stderr Hall)
    as (opt & t0 & E & Hl & Hf & _ & _ & _ & _ & Hout).
  rewrite Hh in E.
  rewrite (basecaller_main_trace cl opt t0 model data sp E Hp Ho Hneg).
  rewrite trace_of_ending. unfold reading_trace.
  set (mr := mk_runner model (device opt) (chunk_size opt) (batch_size opt)).
  destruct (read_events_input opt mr (records sp)) as (F & W & _ & _).
  destruct (end_events_input sp) as (F' & W' & _ & _).
  pose proof (forallb_loop_before_input t0 Hl) as B.
  destruct (before_input_no_writes_runners t0 B) as [W0 _].
  rewrite !fopens_app, !write_streams_app, F, F', W, W', W0, Hf, Hout.
  cbn [fopens write_streams app]. rewrite !app_nil_r. split; reflexivity.
Qed.

(** X7, witness: [-o a.fq -o b.fq] on the sample input. *)
Lemma X7_output_stream_witness :
  let cl := mk_cmdline [Sample.short "o" "a.fq"; Sample.short "o" "b.fq"]
                       ["model"; "reads.blow5"] in
  fopens (trace_of (@basecaller_main Sample.env cl)) = ["a.fq"; "b.fq"] /\
  write_streams (trace_of (@basecaller_main Sample.env cl))
  = [fopened "b.fq"; fopened "b.fq"; fopened "b.fq"].
Proof.
  apply (@X7_output_stream Sample.env
           (mk_cmdline [Sample.short "o" "a.fq"; Sample.short "o" "b.fq"]
                       ["model"; "reads.blow5"])
           "model" "reads.blow5" Sample.input); reflexivity.
Defined.

(** X8.  A run that reaches the read loop does, after the option loop,
    exactly this: it prints the summary, opens the input, constructs the
    runner; for each record in turn it asks the reader for it and writes
    its read before it asks for the next; it calls the reader once more
    and not again after the negative return; it closes the input only
    after an end of file. *)
Theorem X8_reading_protocol {X : Externals} (cl : cmdline) (opt : opt_t)
        (t0 : list event) (model data : string) (sp : slow5_file) :
  parse_args (options cl) (init_opt, stderr) = Running (opt, stderr) t0 ->
  positionals cl = [model; data] ->
  slow5_open data = Some sp ->
  end_ret sp < 0 ->
  let mr := mk_runner model (device opt) (chunk_size opt) (batch_size opt) in
  trace_of (basecaller_main cl)
  = t0 ++ [Fprintf stderr (MSummary model data opt); Slow5Open data;
           NewModelRunner mr]
       ++ flat_map (read_events opt mr) (records sp)
       ++ [Slow5GetNext (end_ret sp)]
       ++ end_events sp
  /\
  (In Slow5Close (trace_of (basecaller_main cl)) <->
   end_ret sp = SLOW5_ERR_EOF /\ end_errno sp = SLOW5_ERR_EOF).
Proof.
  intros Ep Hp Ho Hneg mr.
  pose proof (parse_args_before_input (options cl) init_opt stderr) as [_ B].
  rewrite Ep in B. cbn [trace_of] in B.
  rewrite (basecaller_main_trace cl opt t0 model data sp Ep Hp Ho Hneg).
  rewrite trace_of_ending. unfold reading_trace. fold mr.
  split; [reflexivity|].
  split.
  - intros H. apply in_app_or in H. destruct H as [H | H].
    { pose proof (before_input_not_in t0 _ B H). discriminate. }
    apply in_app_or in H. destruct H as [H | H].
    { cbn in H. intuition discriminate. }
    apply in_app_or in H. destruct H as [H | H].
    { apply in_flat_map in H. destruct H as (rec & _ & H).
      cbn in H. intuition discriminate. }
    destruct H as [H | H]; [discriminate|].
    unfold end_events in H.
    destruct (end_errno sp =? SLOW5_ERR_EOF) eqn:Ee; cbn [negb] in H; [|destruct H].
    destruct (end_ret sp =? SLOW5_ERR_EOF) eqn:Er; cbn [negb] in H.
    + apply Z.eqb_eq in Ee, Er. auto.
    + cbn in H. intuition discriminate.
  - intros [Hr He]. apply in_or_app. right. apply in_or_app. right.
    apply in_or_app. right. right. unfold end_events.
    rewrite Hr, He, Z.eqb_refl. cbn. auto.
Qed.

(** X8, witness: the sample run. *)
Lemma X8_reading_protocol_witness :
  In Slow5Close
     (trace_of (@basecaller_main Sample.env (mk_cmdline [] ["model"; "reads.blow5"])))
  <-> end_ret Sample.input = -1 /\ end_errno Sample.input = -1.
Proof.
  apply (@X8_reading_protocol Sample.env (mk_cmdline [] ["model"; "reads.blow5"])
           Sample.defaults [] "model" "reads.blow5" Sample.input); reflexivity.
Defined.

(** X9.  When the reader ends with a [slow5_errno] other than end of file,
    the run returns failure from inside the loop: the failing call of the
    reader is its last action, so that no diagnostic is printed about the
    error and the input is not closed. *)
Theorem X9_silent_reader_error {X : Externals} (cl : cmdline) (opt : opt_t)
        (t0 : list event) (model data : string) (sp : slow5_file) :
  parse_args (options cl) (init_opt, stderr) = Running (opt, stderr) t0 ->
  positionals cl = [model; data] ->
  slow5_open data = Some sp ->
  end_ret sp < 0 ->
  end_errno sp <> SLOW5_ERR_EOF ->
  exists t,
    basecaller_main cl = Running EXIT_FAILURE (t ++ [Slow5GetNext (end_ret sp)]) /\
    (forall fp m, In (Fprintf fp m) t ->
                  In (Fprintf fp m) t0 \/
                  (fp = stderr /\ m = MSummary model data opt)) /\
    ~ In Slow5Close t.
Proof.
  intros Ep Hp Ho Hneg He.
  pose proof (parse_args_before_input (options cl) init_opt stderr) as [_ B].
  rewrite Ep in B. cbn [trace_of] in B.
  rewrite (basecaller_main_trace cl opt t0 model data sp Ep Hp Ho Hneg).
  unfold ending, reading_trace, end_events.
  apply Z.eqb_neq in He. rewrite He. cbn [negb].
  set (mr := mk_runner model (device opt) (chunk_size opt) (batch_size opt)).
  exists (t0 ++ [Fprintf stderr (MSummary model data opt); Slow5Open data;
                 NewModelRunner mr] ++ flat_map (read_events opt mr) (records sp)).
  split.
  - rewrite app_nil_r, <- !app_assoc. reflexivity.
  - split.
    + intros fp m H. apply in_app_or in H. destruct H as [H | H]; [left; exact H|].
      apply in_app_or in H. destruct H as [H | H].
      * destruct H as [H | [H | [H | []]]]; try discriminate.
        injection H as <- <-. right. split; reflexivity.
      * apply in_flat_map in H. destruct H as (rec & _ & H).
        cbn in H. intuition discriminate.
    + intros H. apply in_app_or in H. destruct H as [H | H].
      { pose proof (before_input_not_in t0 _ B H). discriminate. }
      apply in_app_or in H. destruct H as [H | H].
      * cbn in H. intuition discriminate.
      * apply in_flat_map in H. destruct H as (rec & _ & H).
        cbn in H. intuition discriminate.
Qed.

(** X9, witness: the sample records on the reader that ends with -5. *)
Lemma X9_silent_reader_error_witness :
  exists t,
    @basecaller_main Sample.broken_env (mk_cmdline [] ["model"; "reads.blow5"])
    = Running EXIT_FAILURE (t ++ [Slow5GetNext (-5)]) /\
    (forall fp m, In (Fprintf fp m) t ->
                  In (Fprintf fp m) [] \/
                  (fp = stderr /\ m = MSummary "model" "reads.blow5" Sample.defaults)) /\
    ~ In Slow5Close t.
Proof.
  apply (@X9_silent_reader_error Sample.broken_env
           (mk_cmdline [] ["model"; "reads.blow5"])
           Sample.defaults [] "model" "reads.blow5" Sample.broken_input);
    try reflexivity.
  discriminate.
Defined.

(** X10.  The run ends with status 0 in three cases and in no other: the
    first option refused is [-V]; the options are all accepted and [-h] is
    among them; or the options are all accepted, [-h] is absent, there are
    two arguments, the input opens and the reader ends at the end of the
    file (return and [slow5_errno] both [SLOW5_ERR_EOF]). *)
Theorem X10_success {X : Externals} (cl : cmdline) :
  status_of (basecaller_main cl) = Some EXIT_SUCCESS <->
  (exists pre r post,
      options cl = pre ++ r :: post /\ forallb accepts pre = true /\
      opt_is (c r) "V" = true)
  \/
  (forallb accepts (options cl) = true /\ has_help (options cl) = true)
  \/
  (forallb accepts (options cl) = true /\ has_help (options cl) = false /\
   exists model data sp,
     positionals cl = [model; data] /\ slow5_open data = Some sp /\
     end_ret sp < 0 /\
     end_ret sp = SLOW5_ERR_EOF /\ end_errno sp = SLOW5_ERR_EOF).
Proof.
  assert (HV : forall r, opt_is (c r) "V" = true -> accepts r = false).
  { intros [ch li arg] H. cbn [c] in H. apply Ascii.eqb_eq in H. subst ch.
    reflexivity. }
  split.
  - intros Hs.
    destruct (first_refused (options cl)) as [Hall | (pre & r & post & E & Hp & Hr)].
    2:{ left. exists pre, r, post. split; [exact E|]. split; [exact Hp|].
        destruct (parse_args_refused pre post r init_opt stderr Hp Hr) as (t & Et & _).
        rewrite <- E in Et.
        rewrite (basecaller_main_exit_in_loop cl _ t Et) in Hs. cbn in Hs.
        destruct (opt_is (c r) "V"); [reflexivity | discriminate]. }
    right.
    destruct (has_help (options cl)) eqn:Hh; [left; auto|]. right.
    split; [exact Hall|]. split; [reflexivity|].
    destruct (parse_args_accepted (options cl) init_opt stderr Hall)
      as (opt & t & E & _).
    rewrite Hh in E.
    destruct (Nat.eq_dec (List.length (positionals cl)) 2) as [Hlen | Hlen].
    2:{ exfalso. rewrite basecaller_main_unfold, E in Hs. cbn [bind] in Hs.
        rewrite after_options_help in Hs by (right; exact Hlen).
        discriminate. }
    destruct (positionals cl) as [|model [|data [|x l]]] eqn:Hpos;
      try discriminate Hlen.
    exists model, data.
    destruct (slow5_open data) as [sp|] eqn:Ho.
    2:{ exfalso. rewrite basecaller_main_unfold, E in Hs. cbn [bind] in Hs.
        unfold after_options in Hs. rewrite Hpos in Hs. cbn in Hs.
        rewrite Ho in Hs. discriminate. }
    exists sp. split; [reflexivity|]. split; [reflexivity|].
    destruct (Z_lt_le_dec (end_ret sp) 0) as [Hneg | Hge].
    2:{ exfalso. rewrite basecaller_main_unfold, E in Hs. cbn [bind] in Hs.
        rewrite (after_options_reads cl opt model data sp Hpos Ho) in Hs.
        unfold run_reads in Hs. rewrite read_loop_diverges in Hs by exact Hge.
        discriminate. }
    split; [exact Hneg|].
    rewrite (basecaller_main_trace cl opt t model data sp E Hpos Ho Hneg) in Hs.
    unfold ending in Hs.
    destruct (end_errno sp =? SLOW5_ERR_EOF) eqn:Ee; cbn [negb] in Hs;
      [|discriminate].
    destruct (end_ret sp =? SLOW5_ERR_EOF) eqn:Er; cbn [negb] in Hs;
      [|discriminate].
    apply Z.eqb_eq in Ee, Er. auto.
  - intros [(pre & r & post & E & Hp & Hv) | [[Hall Hh] | (Hall & Hh & H)]].
    + destruct (parse_args_refused pre post r init_opt stderr Hp (HV r Hv))
        as (t & Et & _).
      rewrite <- E, Hv in Et.
      rewrite (basecaller_main_exit_in_loop cl _ t Et). reflexivity.
    + destruct (parse_args_accepted (options cl) init_opt stderr Hall)
        as (opt & t & E & _).
      rewrite Hh in E. rewrite basecaller_main_unfold, E. cbn [bind].
      rewrite after_options_help by (left; reflexivity). reflexivity.
    + destruct H as (model & data & sp & Hpos & Ho & Hneg & Hr & He).
      destruct (parse_args_accepted (options cl) init_opt stderr Hall)
        as (opt & t & E & _).
      rewrite Hh in E.
      rewrite (basecaller_main_trace cl opt t model data sp E Hpos Ho Hneg).
      unfold ending. rewrite Hr, He, Z.eqb_refl. reflexivity.
Qed.

(** X11.  The help message shows, as the values in brackets, the option
    structure at the end of the option loop: for a command line whose
    options are all accepted and that ends with the help message (with
    [-h], or with a number of arguments other than two), the one help
    message printed carries the last chunk size, overlap, batch size and
    device given on that command line, the defaults only where none was
    given. *)
Theorem X11_help_shows_given_values {X : Externals} (cl : cmdline) :
  forallb accepts (options cl) = true ->
  has_help (options cl) = true \/ List.length (positionals cl) <> 2%nat ->
  exists opt t,
    trace_of (basecaller_main cl)
    = t ++ [Fprintf (if has_help (options cl) then stdout else stderr) (MHelp opt)] /\
    existsb is_help t = false /\
    chunk_size opt = last_value "c" (options cl) (chunk_size init_opt) /\
    overlap opt = last_value "p" (options cl) (overlap init_opt) /\
    batch_size opt = last_value "K" (options cl) (batch_size init_opt) /\
    device opt = last_string "x" (options cl) (device init_opt).
Proof.
  intros Hall Hor.
  destruct (parse_args_fields (options cl) init_opt stderr Hall)
    as (opt & t & E & Hl & _ & Hc & Hp & Hk & Hd & _).
  exists opt, t.
  split; [|split; [apply forallb_loop_no_help; exact Hl | auto]].
  rewrite basecaller_main_unfold, E. cbn [bind].
  rewrite after_options_help.
  - reflexivity.
  - destruct Hor as [Hh | Hn]; [left; rewrite Hh; reflexivity | right; exact Hn].
Qed.

(** X11, witness: [-c 5 -h] prints a help message with a chunk size of 5. *)
Lemma X11_help_shows_given_values_witness :
  exists opt t,
    trace_of (@basecaller_main Sample.env
                (mk_cmdline [Sample.short "c" "5"; Sample.short "h" EmptyString] []))
    = t ++ [Fprintf stdout (MHelp opt)] /\
    existsb is_help t = false /\
    chunk_size opt = 5 /\
    overlap opt = 150 /\
    batch_size opt = 512 /\
    device opt = "cpu".
Proof.
  apply (@X11_help_shows_given_values Sample.env
           (mk_cmdline [Sample.short "c" "5"; Sample.short "h" EmptyString] [])).
  - reflexivity.
  - left. reflexivity.
Defined.

(** X13.  The runner of a run that reads the input is constructed once,
    from the first argument (the model), the last [-x] (the device), the
    last [-c] (the chunk size) and the last [-K] (the batch size), the
    defaults where an option is not given. *)
Theorem X13_runner_configuration {X : Externals} (cl : cmdline)
        (model data : string) (sp : slow5_file) :
  forallb accepts (options cl) = true ->
  has_help (options cl) = false ->
  positionals cl = [model; data] ->
  slow5_open data = Some sp ->
  end_ret sp < 0 ->
  runner_events (trace_of (basecaller_main cl))
  = [mk_runner model
               (last_string "x" (options cl) (device init_opt))
               (last_value "c" (options cl) (chunk_size init_opt))
               (last_value "K" (options cl) (batch_size init_opt))].
Proof.
  intros Hall Hh Hp Ho Hneg.
  destruct (parse_args_fields (options cl) init_opt stderr Hall)
    as (opt & t0 & E & Hl & _ & Hc & _ & Hk & Hd & _).
  rewrite Hh in E.
  rewrite (basecaller_main_trace cl opt t0 model data sp E Hp Ho Hneg).
  rewrite trace_of_ending. unfold reading_trace.
  set (mr := mk_runner model (device opt) (chunk_size opt) (batch_size opt)).
  destruct (read_events_input opt mr (records sp)) as (_ & _ & R & _).
  destruct (end_events_input sp) as (_ & _ & R' & _).
  pose proof (forallb_loop_before_input t0 Hl) as B.
  destruct (before_input_no_writes_runners t0 B) as [_ R0].
  rewrite !runner_events_app, R, R', R0. cbn [runner_events app].
  unfold mr. rewrite Hc, Hk, Hd. reflexivity.
Qed.

(** X13, witness: [-x cuda:0 -c 4 -p 1 -K 2] on the sample input. *)
Lemma X13_runner_configuration_witness :
  runner_events
    (trace_of (@basecaller_main Sample.env
                 (mk_cmdline [Sample.short "x" "cuda:0"; Sample.short "c" "4";
                              Sample.short "p" "1"; Sample.short "K" "2"]
                             ["model"; "reads.blow5"])))
  = [mk_runner "model" "cuda:0" 4 2].
Proof.
  apply (@X13_runner_configuration Sample.env
           (mk_cmdline [Sample.short "x" "cuda:0"; Sample.short "c" "4";
                        Sample.short "p" "1"; Sample.short "K" "2"]
                       ["model"; "reads.blow5"])
           "model" "reads.blow5" Sample.input); reflexivity.
Defined.

(** X10, witness: the sample run falls in the third case. *)
Lemma X10_success_witness :
  status_of (@basecaller_main Sample.env (mk_cmdline [] ["model"; "reads.blow5"]))
  = Some EXIT_SUCCESS.
Proof.
  apply (@X10_success Sample.env (mk_cmdline [] ["model"; "reads.blow5"])).
  right. right. split; [reflexivity|]. split; [reflexivity|].
  exists "model", "reads.blow5", Sample.input.
  repeat split; reflexivity.
Defined.

(* ===================================================================== *)
(** ** Options that are stored and not acted on *)
(* ===================================================================== *)

Section StoredOnly.

Context {X : Externals}.

Lemma run_equiv_refl (o : opt_t) : run_equiv o o.
Proof. unfold run_equiv. repeat split. Qed.

Lemma parse_option_same (o o' : opt_t) (fp : FILEp) (r : getopt_result) :
  run_equiv o o' ->
  same_shape (parse_option (o, fp) r) (parse_option (o', fp) r).
Proof.
  destruct o, o'. unfold run_equiv. cbn.
  intros (-> & -> & -> & -> & -> & -> & ->).
  destruct r as [ch li arg]. unfold parse_option, same_shape, run_equiv.
  cbn [c longindex optarg].
  option_cases; test_cases; repeat split; reflexivity.
Qed.

Lemma parse_option_stored_only (o o' : opt_t) (fp : FILEp) (r r' : getopt_result) :
  run_equiv o o' ->
  stored_only r = true -> c r = c r' -> longindex r = longindex r' ->
  accepts r = true -> accepts r' = true ->
  same_shape (parse_option (o, fp) r) (parse_option (o', fp) r').
Proof.
  destruct o, o'. unfold run_equiv. cbn.
  intros (-> & -> & -> & -> & -> & -> & ->).
  destruct r as [ch li arg], r' as [ch' li' arg'].
  cbn [c longindex optarg]. intros Hs <- <-. revert Hs.
  unfold stored_only, accepts, parse_option, same_shape, run_equiv.
  cbn [c longindex optarg].
  option_cases; try discriminate; intros Hs Ha Ha';
    try (apply Z.ltb_lt in Ha); try (apply Z.leb_le in Ha);
    try (apply Z.ltb_lt in Ha'); try (apply Z.leb_le in Ha');
    test_cases; try lia; try discriminate; repeat split; reflexivity.
Qed.

Lemma parse_option_similar (o o' : opt_t) (fp : FILEp) (r r' : getopt_result) :
  run_equiv o o' -> similar r r' ->
  same_shape (parse_option (o, fp) r) (parse_option (o', fp) r').
Proof.
  intros He [<- | (Hs & Hc & Hl & Ha & Ha')].
  - apply parse_option_same. exact He.
  - apply parse_option_stored_only; assumption.
Qed.

Lemma parse_args_similar (rs rs' : list getopt_result) :
  Forall2 similar rs rs' ->
  forall (o o' : opt_t) (fp : FILEp),
    run_equiv o o' ->
    same_shape (parse_args rs (o, fp)) (parse_args rs' (o', fp)).
Proof.
  induction 1 as [|r r' rs rs' Hr Hrs IH]; intros o o' fp He.
  - cbn. split; [exact He | repeat split].
  - rewrite !parse_args_cons.
    pose proof (parse_option_similar o o' fp r r' He Hr) as H1.
    destruct (parse_option (o, fp) r) as [[o1 fp1] t1 | s1 t1 |],
             (parse_option (o', fp) r') as [[o1' fp1'] t1' | s1' t1' |];
      cbn [same_shape] in H1; try contradiction.
    + destruct H1 as (He1 & <- & B1 & B1').
      specialize (IH o1 o1' fp1 He1). cbn [bind].
      destruct (parse_args rs (o1, fp1)) as [[o2 fp2] t2 | s2 t2 |],
               (parse_args rs' (o1', fp1)) as [[o2' fp2'] t2' | s2' t2' |];
        cbn [same_shape] in IH |- *; try contradiction.
      * destruct IH as (He2 & <- & B2 & B2').
        auto using before_input_app.
      * destruct IH as (<- & B2 & B2'). auto using before_input_app.
    + cbn [bind same_shape]. exact H1.
Qed.

Lemma basecall_read_equiv (o o' : opt_t) (mr : ModelRunner) (rec : slow5_rec) :
  run_equiv o o' -> basecall_read o mr rec = basecall_read o' mr rec.
Proof.
  intros (Hc & Hp & Hk & _). unfold basecall_read, read_chunks.
  rewrite Hc, Hp, Hk. reflexivity.
Qed.

Lemma read_loop_equiv (o o' : opt_t) (mr : ModelRunner) (recs : list slow5_rec)
      (e_ret e_errno : Z) :
  run_equiv o o' ->
  read_loop o mr recs e_ret e_errno = read_loop o' mr recs e_ret e_errno.
Proof.
  intros He. induction recs as [|rec rest IH]; [reflexivity|].
  rewrite !read_loop_cons, IH, (basecall_read_equiv o o' mr rec He).
  destruct He as (_ & _ & _ & _ & Ho & Hf & _). rewrite Ho, Hf. reflexivity.
Qed.

Lemma run_reads_equiv (o o' : opt_t) (model : string) (sp : slow5_file) :
  run_equiv o o' -> run_reads o model sp = run_reads o' model sp.
Proof.
  intros He. unfold run_reads.
  rewrite (read_loop_equiv o o' _ _ _ _ He).
  destruct He as (Hc & _ & Hk & _ & _ & _ & Hd). rewrite Hc, Hk, Hd. reflexivity.
Qed.

Lemma after_options_equiv (cl cl' : cmdline) (o o' : opt_t) (fp : FILEp) :
  run_equiv o o' -> positionals cl = positionals cl' ->
  status_of (after_options cl (o, fp)) = status_of (after_options cl' (o', fp)) /\
  filter input_event (trace_of (after_options cl (o, fp)))
  = filter input_event (trace_of (after_options cl' (o', fp))) /\
  (after_options cl (o, fp) = Diverged <-> after_options cl' (o', fp) = Diverged).
Proof.
  intros He Hp. unfold after_options, help_and_exit, print_help_msg. rewrite <- Hp.
  destruct (negb _ || _).
  { destruct (FILEp_eqb fp stdout); cbn; repeat split; discriminate. }
  destruct (nth_error (positionals cl) 0) as [model|];
    [|destruct (FILEp_eqb fp stdout); cbn; repeat split; discriminate].
  destruct (nth_error (positionals cl) 1) as [data|];
    [|destruct (FILEp_eqb fp stdout); cbn; repeat split; discriminate].
  destruct (slow5_open data) as [sp|]; [|cbn; repeat split; discriminate].
  rewrite (run_reads_equiv o o' model sp He).
  destruct (run_reads o' model sp); cbn; repeat split; try discriminate; auto.
Qed.

End StoredOnly.

(** X12.  The values given to [-t], [-r], [-B] and [--debug-break] are
    stored (and, for the first three, tested) and not acted on: two command
    lines with the same arguments whose options differ only in accepted
    values of these four end with the same status and do the same on the
    input, event for event (opening, runner, calls of the reader, reads
    written, closing). *)
Theorem X12_stored_only_options {X : Externals} (cl cl' : cmdline) :
  Forall2 similar (options cl) (options cl') ->
  positionals cl = positionals cl' ->
  status_of (basecaller_main cl) = status_of (basecaller_main cl') /\
  filter input_event (trace_of (basecaller_main cl))
  = filter input_event (trace_of (basecaller_main cl')).
Proof.
  intros Hs Hp. rewrite !basecaller_main_unfold.
  pose proof (parse_args_similar _ _ Hs init_opt init_opt stderr
                                 (run_equiv_refl init_opt)) as H.
  destruct (parse_args (options cl) (init_opt, stderr)) as [[o fp] t | s t |],
           (parse_args (options cl') (init_opt, stderr)) as [[o' fp'] t' | s' t' |];
    cbn [same_shape] in H; try contradiction.
  - destruct H as (He & <- & B & B'). cbn [bind].
    destruct (after_options_equiv cl cl' o o' fp He Hp) as (Hst & Hf & Hd).
    destruct (after_options cl (o, fp)) as [v u | v u |] eqn:E1,
             (after_options cl' (o', fp)) as [v' u' | v' u' |] eqn:E2;
      cbn [status_of trace_of] in *; try discriminate;
      try (destruct Hd as [Hd1 Hd2]; first [discriminate (Hd1 eq_refl)
                                           | discriminate (Hd2 eq_refl)]);
      rewrite ?filter_app, ?(before_input_filter t B), ?(before_input_filter t' B');
      cbn [app]; auto.
  - destruct H as (<- & B & B'). cbn [bind status_of trace_of].
    rewrite (before_input_filter t B), (before_input_filter t' B'). auto.
Qed.

(** X12, witness: [-t 4 --debug-break 1] and [-t 16 --debug-break 9] on the
    sample input. *)
Lemma X12_stored_only_options_witness :
  status_of (@basecaller_main Sample.env
               (mk_cmdline [Sample.short "t" "4"; Sample.long 7 "1"]
                           ["model"; "reads.blow5"]))
  = status_of (@basecaller_main Sample.env
                 (mk_cmdline [Sample.short "t" "16"; Sample.long 7 "9"]
                             ["model"; "reads.blow5"])).
Proof.
  apply (@X12_stored_only_options Sample.env
           (mk_cmdline [Sample.short "t" "4"; Sample.long 7 "1"]
                       ["model"; "reads.blow5"])
           (mk_cmdline [Sample.short "t" "16"; Sample.long 7 "9"]
                       ["model"; "reads.blow5"])).
  - constructor; [|constructor; [|constructor]];
      right; repeat split; reflexivity.
  - reflexivity.
Defined.
